(** * Zombie Hunter: a shallow embedding of [src/main.py]

    The development follows the class [ZombieHunter] method by method.
    Python values that reach the program from outside (the parsed model
    reply) are kept dynamically typed ([pyval]); the records the scanners
    build have a fixed shape and are given a record type.  Console output,
    requests to the cloud and raised exceptions are made explicit by the
    monad [M]: a computation yields the events it produced and either an
    exception or a value.

    Conventions:
    - a call to a service is a function of the cloud record: the same
      question gets the same answer during one run;
    - [json.loads] is a parameter of the analyzer;
    - floats are binary64 numbers ([PrimFloat]), so that sums and rounding
      are the ones Python computes;
    - a string is the UTF-8 encoding of the Python text: searching for an
      ASCII character and slicing at what is found are done on the bytes,
      with the same result; where the program counts characters
      ([len(reason)], [reason[:54]]) the code points are counted;
    - the records of a list are distinct objects (each scanner builds a
      fresh dict per finding), so a list of records is a list of values; the
      one loop whose in-place updates can be interrupted by an exception
      returns the list as it stands next to the exception;
    - the console reads a text it is given as markup and raises
      [MarkupError] for some texts with a bracket; this is modelled where the
      program prints a text it was sent, the failure line of the analyzer
      (line 316).  Identifiers, region names, error codes and file names are
      taken to carry no markup, and the table is printed with its cells as
      they are: the statement about tables of arbitrary reasons is about
      cells without a bracket;
    - opening and writing a file succeed; the statements that conclude that
      the command succeeds are about runs that write no file;
    - the text of a printed line is not modelled beyond the values it
      shows. *)

From Stdlib Require Import ZArith Floats String Ascii List Bool Lia.
From stdpp Require Import gmap strings list pretty.
Set Warnings "-inexact-float,-register-all".

Open Scope string_scope.
Open Scope Z_scope.
Open Scope list_scope.

(** ** Python values and exceptions *)

(** What [json.loads] can return: [None], booleans, integers of any size,
    floats, strings, lists and dicts with string keys.  A dict keeps the
    order in which its keys were inserted. *)
Inductive pyval : Type :=
| PNone
| PBool (b : bool)
| PInt (z : Z)
| PFloat (f : float)
| PStr (s : string)
| PList (l : list pyval)
| PDict (d : list (string * pyval)).

(** The program tells exceptions apart in one way only: botocore's
    [ClientError], whose [response['Error']['Code']] it reads, against every
    other subclass of [Exception], of which the class name is kept. *)
Inductive exn : Type :=
| ClientError (code : string)
| PyExc (cls : string).

Definition KeyError : exn := PyExc "KeyError".
Definition TypeError : exn := PyExc "TypeError".
Definition ValueError : exn := PyExc "ValueError".
Definition IndexError : exn := PyExc "IndexError".
Definition AttributeError : exn := PyExc "AttributeError".
Definition OverflowError : exn := PyExc "OverflowError".
Definition NotRenderableError : exn := PyExc "NotRenderableError".
Definition MarkupError : exn := PyExc "MarkupError".

(** A pure step that may raise. *)
Definition res (A : Type) : Type := exn + A.

Definition res_bind {A B} (r : res A) (k : A -> res B) : res B :=
  match r with
  | inl e => inl e
  | inr a => k a
  end.

Notation "'let?' x := r 'in' k" := (res_bind r (fun x => k))
  (at level 10, x name, r at level 100, k at level 200, only parsing).

(** ** The records *)

(** The value stored under ['ai_analysis']: both keys are always written
    together (lines 319-322, 379-382, 387-390, 398-401).  The two values
    are whatever the model sent, so they stay dynamically typed. *)
Record analysis : Type := Analysis {
  risk_score : pyval;
  reason : pyval
}.

(** One finding.  An optional field is a key the dict may lack: a volume has
    ['size'], an address ['public_ip'], and ['ai_analysis'] is absent until
    the analyzer has run. *)
Record zombie : Type := Zombie {
  resource_type : string;
  resource_id : string;
  size : option Z;
  public_ip : option string;
  region : string;
  tags : list (string * string);
  cost_estimate : float;
  ai_analysis : option analysis
}.

(** [zombie['ai_analysis'] = a] *)
Definition set_analysis (a : analysis) (z : zombie) : zombie :=
  {| resource_type := resource_type z;
     resource_id := resource_id z;
     size := size z;
     public_ip := public_ip z;
     region := region z;
     tags := tags z;
     cost_estimate := cost_estimate z;
     ai_analysis := Some a |}.

(** The record with the ['ai_analysis'] key removed; two records with the
    same [scanned] part differ in their annotation only. *)
Definition scanned (z : zombie) : zombie :=
  {| resource_type := resource_type z;
     resource_id := resource_id z;
     size := size z;
     public_ip := public_ip z;
     region := region z;
     tags := tags z;
     cost_estimate := cost_estimate z;
     ai_analysis := None |}.

(** A row of the table of [display_table] (lines 167-174).  The cost is kept
    as the number that the row formats with [:.2f]. *)
Record row : Type := Row {
  row_type : string;
  row_id : string;
  row_region : string;
  row_cost : float;
  row_risk : string;
  row_risk_style : string;
  row_reason : string
}.

(** The markdown report, block by block, in the order the blocks are
    appended to [report]. *)
Inductive md_block : Type :=
| MdSummary (timestamp : string) (total_resources : nat) (total_cost : float)
| MdRiskBreakdown (low medium high unknown : Z)
| MdTableHead
| MdTableRow (rtype rid rregion : string) (cost : float)
             (emoji : string) (risk reason : pyval)
| MdRecommendations (low medium high unknown : Z)
| MdClean.

(** ** Effects *)

(** What a run prints, writes and sends. *)
Inductive event : Type :=
| ScanningRegion (r : string)                       (* line 90 *)
| RegionError (r : string) (e : exn)                (* lines 55 and 79, stderr *)
| TryingModel (model_id : string)                   (* line 279 *)
| InvokeModel (bedrock_region model_id prompt : string)   (* lines 282-294 *)
| ModelSucceeded (model_id : string)                (* line 301 *)
| ModelNotAvailable (model_id code : string)        (* line 307 *)
| AnalysisFailed (e : exn)                          (* line 316 *)
| ParseFailed (e : exn)                             (* line 395, stderr *)
| NoZombiesFound                                    (* line 125 *)
| PrintTable (rows : list row)                      (* line 176 *)
| TotalCost (total : float)                         (* line 179 *)
| RiskSummary (low medium high unknown : Z)         (* line 180 *)
| WriteFile (filename : string) (report : list md_block)   (* lines 252-253 *)
| ReportSaved (filename : string).                  (* line 255 *)

(** Events produced so far, then an exception or a value. *)
Definition M (A : Type) : Type := list event * res A.

Definition ret {A} (a : A) : M A := ([], inr a).
Definition raise {A} (e : exn) : M A := ([], inl e).
Definition emit (ev : event) : M unit := ([ev], inr tt).
Definition lift {A} (r : res A) : M A := ([], r).

Definition bind {A B} (m : M A) (k : A -> M B) : M B :=
  match m with
  | (out, inl e) => (out, inl e)
  | (out, inr a) => let (out', r) := k a in (out ++ out', r)
  end.

(** [try: m except Exception as e: h e]; a handler for one class re-raises
    the others. *)
Definition try_except {A} (m : M A) (h : exn -> M A) : M A :=
  match m with
  | (out, inl e) => let (out', r) := h e in (out ++ out', r)
  | (out, inr a) => (out, inr a)
  end.

Notation "'let!' x := m 'in' k" := (bind m (fun x => k))
  (at level 10, x name, m at level 100, k at level 200, only parsing).
Notation "'run!' m 'in' k" := (bind m (fun _ => k))
  (at level 10, m at level 100, k at level 200, only parsing).

(** A [for] loop that threads an accumulator and stops at the first
    exception. *)
Fixpoint for_each {A B} (body : B -> A -> M B) (l : list A) (acc : B) : M B :=
  match l with
  | [] => ret acc
  | x :: l' => let! acc' := body acc x in for_each body l' acc'
  end.

(** ** Python operations on dynamically typed values *)

(** Lookup in a dict kept as a list of items. *)
Fixpoint dict_get {V} (k : string) (d : list (string * V)) : option V :=
  match d with
  | [] => None
  | (k', v) :: d' => if String.eqb k' k then Some v else dict_get k d'
  end.

(** [d[k] = v]: an existing key keeps its place, a new one goes last. *)
Fixpoint dict_set {V} (k : string) (v : V) (d : list (string * V))
  : list (string * V) :=
  match d with
  | [] => [(k, v)]
  | (k', v') :: d' =>
      if String.eqb k' k then (k, v) :: d' else (k', v') :: dict_set k v d'
  end.

(** [v[k]] for a string [k]. *)
Definition subscript_str (v : pyval) (k : string) : res pyval :=
  match v with
  | PDict d => match dict_get k d with
               | Some x => inr x
               | None => inl KeyError
               end
  | _ => inl TypeError
  end.

(** [l[i]] on a Python sequence of length [length l]: a negative index counts
    from the end. *)
Definition seq_index {A} (l : list A) (i : Z) : res A :=
  let n := Z.of_nat (length l) in
  let j := if i <? 0 then i + n else i in
  if (0 <=? j) && (j <? n) then
    match l !! Z.to_nat j with
    | Some x => inr x
    | None => inl IndexError
    end
  else inl IndexError.

(** [v[i]] for an integer [i]; the keys of a parsed dict are strings, so an
    integer is never among them. *)
Definition subscript_int (v : pyval) (i : Z) : res pyval :=
  match v with
  | PList l => seq_index l i
  | PStr s =>
      let? c := seq_index (list_ascii_of_string s) i in
      inr (PStr (String c ""))
  | PDict _ => inl KeyError
  | _ => inl TypeError
  end.

(** [v.get(k, dflt)]: only a dict has the method. *)
Definition py_get (v : pyval) (k : string) (dflt : pyval) : res pyval :=
  match v with
  | PDict d => inr (default dflt (dict_get k d))
  | _ => inl AttributeError
  end.

(** The items a [for] loop over [v] visits: the elements of a list, the keys
    of a dict, the characters of a string. *)
Definition py_iter (v : pyval) : res (list pyval) :=
  match v with
  | PList l => inr l
  | PDict d => inr (map (fun kv => PStr (fst kv)) d)
  | PStr s => inr (map (fun c => PStr (String c "")) (list_ascii_of_string s))
  | _ => inl TypeError
  end.

(** ** Strings *)

Fixpoint find_from (c : ascii) (s : string) (i : Z) : Z :=
  match s with
  | EmptyString => -1
  | String a s' => if Ascii.eqb a c then i else find_from c s' (i + 1)
  end.

(** [s.find(c)] for a one-character [c]. *)
Definition str_find (c : ascii) (s : string) : Z := find_from c s 0.

Fixpoint rfind_from (c : ascii) (s : string) (i last : Z) : Z :=
  match s with
  | EmptyString => last
  | String a s' => rfind_from c s' (i + 1) (if Ascii.eqb a c then i else last)
  end.

(** [s.rfind(c)] for a one-character [c]. *)
Definition str_rfind (c : ascii) (s : string) : Z := rfind_from c s 0 (-1).

(** [s[a:b]] for bounds that are not negative. *)
Definition slice (s : string) (a b : Z) : string :=
  substring (Z.to_nat a) (Z.to_nat (b - a)) s.

Definition is_upper (c : ascii) : bool :=
  let n := nat_of_ascii c in (65 <=? n)%nat && (n <=? 90)%nat.
Definition is_lower (c : ascii) : bool :=
  let n := nat_of_ascii c in (97 <=? n)%nat && (n <=? 122)%nat.
Definition to_upper (c : ascii) : ascii :=
  if is_lower c then ascii_of_nat (nat_of_ascii c - 32) else c.
Definition to_lower (c : ascii) : ascii :=
  if is_upper c then ascii_of_nat (nat_of_ascii c + 32) else c.

(** [s.replace(a, b)] for one-character [a] and [b]. *)
Fixpoint replace_char (a b : ascii) (s : string) : string :=
  match s with
  | EmptyString => EmptyString
  | String c s' => String (if Ascii.eqb c a then b else c) (replace_char a b s')
  end.

(** [s.title()] on ASCII text: a letter that follows a letter is lowered,
    any other letter is raised. *)
Fixpoint title_from (after_letter : bool) (s : string) : string :=
  match s with
  | EmptyString => EmptyString
  | String c s' =>
      if is_upper c || is_lower c
      then String (if after_letter then to_lower c else to_upper c)
                  (title_from true s')
      else String c (title_from false s')
  end.

Definition title (s : string) : string := title_from false s.

(** [sep.join(l)] *)
Fixpoint join (sep : string) (l : list string) : string :=
  match l with
  | [] => ""
  | [x] => x
  | x :: l' => x +:+ sep +:+ join sep l'
  end.

(** ** Floats *)

(** [float(z)] as the arithmetic does it for an [int] operand: the nearest
    double, or [OverflowError] when there is none. *)
Definition int_to_float (z : Z) : res float :=
  let f := SF2Prim (binary_normalize prec emax z 0 false) in
  if PrimFloat.is_infinity f then inl OverflowError else inr f.

(** [round(x, 2)] on a float: the decimal with two places nearest to the
    exact value of [x], ties to the even digit, then the double nearest to
    that decimal; zeros, infinities and NaN are returned as they are. *)
Definition round2 (x : float) : float :=
  match Prim2SF x with
  | S754_finite s m e =>
      let num := Z.pos m * 100 in
      let n := match e with
               | Zneg p =>
                   let den := Z.pow_pos 2 p in
                   let q := num / den in
                   let r := num mod den in
                   if 2 * r <? den then q
                   else if den <? 2 * r then q + 1
                   else if Z.even q then q else q + 1
               | _ => num * 2 ^ e
               end in
      match n with
      | Zpos p =>
          SF2Prim (SFdiv prec emax (S754_finite s p 0) (S754_finite false 100 0))
      | _ => if s then (-0)%float else 0%float
      end
  | _ => x
  end.

(** ** Cost estimator (lines 102-120) *)

Definition pricing : gmap string float :=
  <["gp2" := 0.10%float]> (
  <["gp3" := 0.08%float]> (
  <["io1" := 0.125%float]> (
  <["io2" := 0.125%float]> (
  <["st1" := 0.045%float]> (
  <["sc1" := 0.025%float]> (
  <["standard" := 0.05%float]> ∅)))))).

Definition _estimate_ebs_cost (size_gb : Z) (volume_type : string) : res float :=
  let rate := default 0.10%float (pricing !! volume_type) in
  let? f := int_to_float size_gb in
  inr (round2 (f * rate)%float).

Definition _estimate_eip_cost : float := 3.65%float.

(** ** The world outside the program *)

Record aws_tag : Type := Tag { Key : string; Value : string }.

(** An item of [response['Volumes']].  The program subscripts ['VolumeId'],
    ['Size'] and ['VolumeType'] and reads ['Tags'] with [get]. *)
Record aws_volume : Type := Volume {
  VolumeId : string;
  Size : Z;
  VolumeType : string;
  VolumeTags : option (list aws_tag)
}.

(** An item of [response['Addresses']].  The program subscripts
    ['AllocationId'] and ['PublicIp'], tests ['InstanceId'] and
    ['NetworkInterfaceId'] for presence and reads ['Tags'] with [get]. *)
Record aws_address : Type := Address {
  AllocationId : string;
  PublicIp : string;
  InstanceId : option string;
  NetworkInterfaceId : option string;
  AddressTags : option (list aws_tag)
}.

(** The services the program calls.  Each call answers with a value or
    raises; creating the regional EC2 client and calling it sit in the same
    [try] block and are one step here. *)
Record cloud : Type := Cloud {
  (* [client('ec2', region).describe_volumes(status = available)['Volumes']] *)
  describe_volumes : string -> res (list aws_volume);
  (* [client('ec2', region).describe_addresses()['Addresses']] *)
  describe_addresses : string -> res (list aws_address);
  (* [client('bedrock-runtime', region)] *)
  bedrock_client : string -> res unit;
  (* [invoke_model(modelId, body)['body'].read()], by region, model and prompt *)
  invoke_model : string -> string -> string -> res string;
  (* [datetime.now().strftime(...)] *)
  now : string;
  (* [str(e)] for an exception raised during the run *)
  exn_text : exn -> string;
  (* [rich]'s reading of a text with a bracket as console markup: it raises
     [MarkupError] for a closing tag that matches no open tag *)
  render_markup : string -> res unit
}.

(** [self]: the regions found at construction and the inference region. *)
Record hunter : Type := Hunter {
  regions : list string;
  bedrock_region : string
}.

(** [{tag['Key']: tag['Value'] for tag in tags}] *)
Definition tags_dict (l : list aws_tag) : list (string * string) :=
  fold_left (fun d t => dict_set (Key t) (Value t) d) l [].

Section Scanners.
Variable aws : cloud.

(** *** Volume scanner (lines 34-56) *)

Definition volume_record (r : string) (volume : aws_volume) (cost : float)
  : zombie :=
  {| resource_type := "ebs_volume";
     resource_id := VolumeId volume;
     size := Some (Size volume);
     public_ip := None;
     region := r;
     tags := tags_dict (default [] (VolumeTags volume));
     cost_estimate := cost;
     ai_analysis := None |}.

Definition find_unattached_volumes (r : string) : M (list zombie) :=
  try_except
    (let! response := lift (describe_volumes aws r) in
     for_each
       (fun volumes volume =>
          let! cost :=
            lift (_estimate_ebs_cost (Size volume) (VolumeType volume)) in
          ret (volumes ++ [volume_record r volume cost]))
       response [])
    (fun e =>
       match e with
       | ClientError _ => run! emit (RegionError r e) in ret []
       | _ => raise e
       end).

(** *** Static-IP scanner (lines 58-80) *)

Definition eip_record (r : string) (address : aws_address) : zombie :=
  {| resource_type := "elastic_ip";
     resource_id := AllocationId address;
     size := None;
     public_ip := Some (PublicIp address);
     region := r;
     tags := tags_dict (default [] (AddressTags address));
     cost_estimate := _estimate_eip_cost;
     ai_analysis := None |}.

(** ['InstanceId' not in address and 'NetworkInterfaceId' not in address] *)
Definition is_idle (address : aws_address) : bool :=
  match InstanceId address, NetworkInterfaceId address with
  | None, None => true
  | _, _ => false
  end.

Definition find_idle_elastic_ips (r : string) : M (list zombie) :=
  try_except
    (let! response := lift (describe_addresses aws r) in
     for_each
       (fun idle_ips address =>
          if is_idle address
          then ret (idle_ips ++ [eip_record r address])
          else ret idle_ips)
       response [])
    (fun e =>
       match e with
       | ClientError _ => run! emit (RegionError r e) in ret []
       | _ => raise e
       end).

(** *** Hunt orchestrator (lines 82-100) *)

(** One round of the loop (lines 90-98). *)
Definition scan_region (all_zombies : list zombie) (r : string)
  : M (list zombie) :=
  run! emit (ScanningRegion r) in
  let! volumes := find_unattached_volumes r in
  let! ips := find_idle_elastic_ips r in
  ret ((all_zombies ++ volumes) ++ ips).

Definition hunt_zombies (self : hunter) (rs : option (list string))
  : M (list zombie) :=
  let rs := match rs with None => regions self | Some l => l end in
  for_each scan_region rs [].

End Scanners.

(** ** Presenters *)

Definition risk_counts0 : gmap string Z :=
  <["Low" := 0]> (<["Medium" := 0]> (<["High" := 0]> (<["Unknown" := 0]> ∅))).

Definition risk_colors : gmap string string :=
  <["Low" := "green"]> (<["Medium" := "yellow"]> (
  <["High" := "red"]> (<["Unknown" := "dim"]> ∅))).

Definition risk_emojis : gmap string string :=
  <["Low" := "🟢"]> (<["Medium" := "🟡"]> (
  <["High" := "🔴"]> (<["Unknown" := "⚪"]> ∅))).

(** [zombie.get('ai_analysis', {}).get('risk_score', 'Unknown')] *)
Definition risk_of (z : zombie) : pyval :=
  match ai_analysis z with
  | Some a => risk_score a
  | None => PStr "Unknown"
  end.

(** [zombie.get('ai_analysis', {}).get('reason', 'No analysis available')] *)
Definition reason_of (z : zombie) : pyval :=
  match ai_analysis z with
  | Some a => reason a
  | None => PStr "No analysis available"
  end.

(** [risk_counts[risk] += 1]: a key that is not in the dict raises
    [KeyError], a list or a dict cannot be hashed at all. *)
Definition count_risk (risk : pyval) (risk_counts : gmap string Z)
  : res (gmap string Z) :=
  match risk with
  | PStr s =>
      match risk_counts !! s with
      | Some n => inr (<[s := n + 1]> risk_counts)
      | None => inl KeyError
      end
  | PList _ | PDict _ => inl TypeError
  | _ => inl KeyError
  end.

(** [risk_counts[k]] *)
Definition count_of (k : string) (risk_counts : gmap string Z) : res Z :=
  match risk_counts !! k with
  | Some n => inr n
  | None => inl KeyError
  end.

(** The value of a dict of strings at a key that was counted just before,
    hence is a string: [{...}.get(risk, dflt)]. *)
Definition styled (table : gmap string string) (dflt : string) (risk : pyval)
  : res (string * string) :=
  match risk with
  | PStr s => inr (s, default dflt (table !! s))
  | _ => inl TypeError
  end.

(** A byte of the form [10xxxxxx] continues the code point of the byte
    before it. *)
Definition is_continuation (c : ascii) : bool :=
  let n := nat_of_ascii c in (128 <=? n)%nat && (n <? 192)%nat.

(** [len(s)]: the code points of [s], one for each byte that starts one. *)
Fixpoint char_length (s : string) : nat :=
  match s with
  | EmptyString => 0%nat
  | String c s' =>
      if is_continuation c then char_length s' else S (char_length s')
  end.

(** [s[:n]]: the first [n] code points of [s]. *)
Fixpoint char_prefix (n : nat) (s : string) : string :=
  match s with
  | EmptyString => EmptyString
  | String c s' =>
      if is_continuation c then String c (char_prefix n s')
      else match n with
           | O => EmptyString
           | S n' => String c (char_prefix n' s')
           end
  end.

(** Lines 163-165 and the cell check of [add_row]: a string is cut to 54
    characters and an ellipsis when longer than 57; [None] and numbers have
    no [len]; a long list or dict cannot be sliced and joined to a string; a
    short one is refused by the table ([rich] accepts strings and
    renderables only). *)
Definition display_reason (r : pyval) : res string :=
  match r with
  | PStr s =>
      inr (if 57 <? Z.of_nat (char_length s)
           then char_prefix 54 s +:+ "..." else s)
  | PList l =>
      if 57 <? Z.of_nat (length l) then inl TypeError else inl NotRenderableError
  | PDict d =>
      if 57 <? Z.of_nat (length d) then inl TypeError else inl NotRenderableError
  | _ => inl TypeError
  end.

(** The loop state of [display_table]: [total_cost], [risk_counts] and the
    rows added so far.  [total_cost] starts as the integer 0, which the first
    addition turns into the float 0.0 and which prints the same. *)
Definition table_state : Type := float * gmap string Z * list row.

(** One iteration of the loop of lines 139-174. *)
Definition table_step (st : table_state) (z : zombie) : M table_state :=
  let '(total_cost, risk_counts, rows) := st in
  let rtype := title (replace_char "_" " " (resource_type z)) in
  let cost := cost_estimate z in
  let total_cost := (total_cost + cost)%float in
  let risk := risk_of z in
  let! risk_counts := lift (count_risk risk risk_counts) in
  let! risk_text := lift (styled risk_colors "dim" risk) in
  let! why := lift (display_reason (reason_of z)) in
  ret (total_cost, risk_counts,
       rows ++ [Row rtype (resource_id z) (region z) cost
                    (fst risk_text) (snd risk_text) why]).

(** *** Table (lines 122-180) *)
Definition display_table (zombies : list zombie) : M unit :=
  match zombies with
  | [] => emit NoZombiesFound
  | _ =>
      let! st := for_each table_step zombies (0%float, risk_counts0, []) in
      let '(total_cost, risk_counts, rows) := st in
      run! emit (PrintTable rows) in
      run! emit (TotalCost total_cost) in
      let! low := lift (count_of "Low" risk_counts) in
      let! medium := lift (count_of "Medium" risk_counts) in
      let! high := lift (count_of "High" risk_counts) in
      let! unknown := lift (count_of "Unknown" risk_counts) in
      emit (RiskSummary low medium high unknown)
  end.

(** [sum(z.get('cost_estimate', 0) for z in zombies)] *)
Definition total_cost_of (zombies : list zombie) : float :=
  fold_left (fun t z => (t + cost_estimate z)%float) zombies 0%float.

(** The loop of lines 198-200. *)
Fixpoint count_risks (zombies : list zombie) (risk_counts : gmap string Z)
  : res (gmap string Z) :=
  match zombies with
  | [] => inr risk_counts
  | z :: zombies' =>
      let? risk_counts := count_risk (risk_of z) risk_counts in
      count_risks zombies' risk_counts
  end.

(** One line of the resource table (lines 215-227). *)
Definition md_row (z : zombie) : res md_block :=
  let? risk_text := styled risk_emojis "⚪" (risk_of z) in
  inr (MdTableRow (title (replace_char "_" " " (resource_type z)))
                  (resource_id z) (region z) (cost_estimate z)
                  (snd risk_text) (risk_of z) (reason_of z)).

Fixpoint md_rows (zombies : list zombie) : res (list md_block) :=
  match zombies with
  | [] => inr []
  | z :: zombies' =>
      let? r := md_row z in
      let? rs := md_rows zombies' in
      inr (r :: rs)
  end.

(** *** Markdown report (lines 182-255); the file is taken to be writable. *)
Definition generate_markdown_report (aws : cloud) (zombies : list zombie)
    (filename : string) : M unit :=
  let summary :=
    MdSummary (now aws) (length zombies) (total_cost_of zombies) in
  let! report :=
    match zombies with
    | [] => ret [summary; MdClean]
    | _ =>
        let! risk_counts := lift (count_risks zombies risk_counts0) in
        let! low := lift (count_of "Low" risk_counts) in
        let! medium := lift (count_of "Medium" risk_counts) in
        let! high := lift (count_of "High" risk_counts) in
        let! unknown := lift (count_of "Unknown" risk_counts) in
        let! rows := lift (md_rows zombies) in
        ret ([summary; MdRiskBreakdown low medium high unknown; MdTableHead]
               ++ rows ++ [MdRecommendations low medium high unknown])
    end in
  run! emit (WriteFile filename report) in
  emit (ReportSaved filename).

(** ** AI risk analyzer *)

Definition nl : string := String "010"%char "".
Definition dq : string := String "034"%char "".

(** The loop body of lines 329-339 for the resource at position [i]. *)
Definition describe_resource (i : nat) (z : zombie) : string :=
  let tags_str :=
    join ", " (map (fun kv => fst kv +:+ "=" +:+ snd kv) (tags z)) in
  let tags_str := if String.eqb tags_str "" then "No tags" else tags_str in
  pretty (Z.of_nat i + 1) +:+ ". " +:+ resource_type z +:+ " "
    +:+ resource_id z +:+ " in " +:+ region z +:+ nl
    +:+ "   Tags: " +:+ tags_str +:+ nl
    +:+ match size z with
        | Some n => "   Size: " +:+ pretty n +:+ "GB" +:+ nl
        | None => ""
        end
    +:+ match public_ip z with
        | Some ip => "   IP: " +:+ ip +:+ nl
        | None => ""
        end
    +:+ nl.

Definition _create_analysis_prompt (zombies : list zombie) : string :=
  let resources_text := String.concat "" (imap describe_resource zombies) in
  join nl [
    "Analyze these AWS resources to determine if they're safe to delete. For each resource, provide a risk score (Low/Medium/High) and a one-sentence reason.";
    "";
    "Consider these factors:";
    "- Tags indicating purpose, environment, or ownership";
    "- Resource names suggesting production use";
    "- Size/cost implications";
    "- Common patterns that suggest active use";
    "";
    "Resources to analyze:";
    resources_text;
    "";
    "Respond in this exact JSON format:";
    "{";
    "  " +:+ dq +:+ "analyses" +:+ dq +:+ ": [";
    "    {";
    "      " +:+ dq +:+ "resource_number" +:+ dq +:+ ": 1,";
    "      " +:+ dq +:+ "risk_score" +:+ dq +:+ ": " +:+ dq
      +:+ "Low|Medium|High" +:+ dq +:+ ",";
    "      " +:+ dq +:+ "reason" +:+ dq +:+ ": " +:+ dq
      +:+ "One sentence explanation" +:+ dq;
    "    }";
    "  ]";
    "}"
  ].

Definition models_to_try : list string := [
  "anthropic.claude-3-haiku-20240307-v1:0";
  "anthropic.claude-3-5-sonnet-20241022-v2:0";
  "anthropic.claude-3-sonnet-20240229-v1:0";
  "anthropic.claude-instant-v1"
].

(** The codes of line 306. *)
Definition model_unavailable (error_code : string) : bool :=
  bool_decide (error_code ∈ ["ResourceNotFoundException";
                              "ValidationException";
                              "AccessDeniedException"]).

Definition parse_failed : analysis :=
  Analysis (PStr "Unknown") (PStr "Failed to parse AI analysis").
Definition not_available : analysis :=
  Analysis (PStr "Unknown") (PStr "Analysis not available for this resource").
Definition ai_unavailable : analysis :=
  Analysis (PStr "Unknown")
           (PStr "AI analysis unavailable - check Bedrock model access").

(** [v - 1]; [True] and [False] count as 1 and 0. *)
Definition minus_one (v : pyval) : res pyval :=
  match v with
  | PInt z => inr (PInt (z - 1))
  | PBool b => inr (PInt ((if b then 1 else 0) - 1))
  | PFloat f => inr (PFloat (f - 1)%float)
  | _ => inl TypeError
  end.

(** [response_body['content'][0]['text']] (line 298) *)
Definition reply_text (response_body : pyval) : res pyval :=
  let? content := subscript_str response_body "content" in
  let? first := subscript_int content 0 in
  subscript_str first "text".

(** One iteration of the loop of lines 376-382 on the current list.  The
    annotation is built before the list is indexed, and the assignment is
    the last step: an iteration that raises has changed nothing. *)
Definition merge_entry (zombies : list zombie) (entry : pyval)
  : res (list zombie) :=
  let? number := subscript_str entry "resource_number" in
  let? resource_idx := minus_one number in
  match resource_idx with
  | PInt i =>
      if (0 <=? i) && (i <? Z.of_nat (length zombies)) then
        let? risk := subscript_str entry "risk_score" in
        let? why := subscript_str entry "reason" in
        inr (alter (set_analysis (Analysis risk why)) (Z.to_nat i) zombies)
      else inr zombies
  | PFloat f =>
      let len :=
        SF2Prim (binary_normalize prec emax (Z.of_nat (length zombies)) 0 false) in
      if ((0 <=? f) && (f <? len))%float then
        let? risk := subscript_str entry "risk_score" in
        let? why := subscript_str entry "reason" in
        inl TypeError
      else inr zombies
  | _ => inl TypeError
  end.

(** The loop of lines 376-382.  The records are updated in place, so when an
    iteration raises, the list as the earlier iterations left it is what the
    [except] branch sees: it is returned next to the exception. *)
Fixpoint merge_entries (entries : list pyval) (zombies : list zombie)
  : option exn * list zombie :=
  match entries with
  | [] => (None, zombies)
  | entry :: entries' =>
      match merge_entry zombies entry with
      | inl e => (Some e, zombies)
      | inr zombies' => merge_entries entries' zombies'
      end
  end.

(** Lines 385-390. *)
Definition fill_default (z : zombie) : zombie :=
  match ai_analysis z with
  | None => set_analysis not_available z
  | Some _ => z
  end.

(** The [except] branch of [_merge_analysis] (lines 394-402). *)
Definition on_parse_failure (e : exn) (zombies : list zombie)
  : M (list zombie) :=
  run! emit (ParseFailed e) in
  ret (map (set_analysis parse_failed) zombies).

Section Analyzer.
Variable aws : cloud.
(** [json.loads] *)
Variable json_loads : string -> res pyval.

(** Lines 366-376, up to the first iteration: the entries the loop is
    going to visit. *)
Definition parse_entries (analysis_text : pyval) : res (list pyval) :=
  match analysis_text with
  | PStr text =>
      let start_idx := str_find "{" text in
      let end_idx := str_rfind "}" text + 1 in
      if (start_idx =? -1) || (end_idx =? 0) then inl ValueError
      else
        let json_str := slice text start_idx end_idx in
        let? analysis_data := json_loads json_str in
        let? analyses := py_get analysis_data "analyses" (PList []) in
        py_iter analyses
  | _ => inl AttributeError
  end.

(** *** Merge (lines 363-402) *)
Definition _merge_analysis (zombies : list zombie) (analysis_text : pyval)
  : M (list zombie) :=
  match parse_entries analysis_text with
  | inl e => on_parse_failure e zombies
  | inr entries =>
      match merge_entries entries zombies with
      | (Some e, zombies') => on_parse_failure e zombies'
      | (None, zombies') => ret (map fill_default zombies')
      end
  end.

(** Lines 282-298: one request and the text of its reply. *)
Definition request (self : hunter) (prompt model_id : string) : res pyval :=
  let? body := invoke_model aws (bedrock_region self) model_id prompt in
  let? response_body := json_loads body in
  reply_text response_body.

(** The loop of lines 277-313: a [return] leaves it with the merged list,
    a [continue] goes on with the next identifier. *)
Fixpoint try_models (self : hunter) (zombies : list zombie) (prompt : string)
    (models : list string) : M (list zombie) :=
  match models with
  | [] => raise (PyExc "Exception")
  | model_id :: models' =>
      try_except
        (run! emit (TryingModel model_id) in
         run! emit (InvokeModel (bedrock_region self) model_id prompt) in
         let! analysis_text := lift (request self prompt model_id) in
         run! emit (ModelSucceeded model_id) in
         _merge_analysis zombies analysis_text)
        (fun e =>
           match e with
           | ClientError error_code =>
               if model_unavailable error_code
               then run! emit (ModelNotAvailable model_id error_code) in
                    try_models self zombies prompt models'
               else raise e
           | _ => raise e
           end)
  end.

(** [self.console.print(text)]: [rich] looks for markup only in a text that
    has a bracket. *)
Definition console_print (text : string) : res unit :=
  if str_find "[" text =? -1 then inr tt else render_markup aws text.

(** [str(e)] in the handler of line 315.  The class [Exception] itself is
    raised by line 312 only, with its fixed text; the other exceptions come
    from the services and the libraries. *)
Definition failure_text (e : exn) : string :=
  match e with
  | PyExc cls =>
      if String.eqb cls "Exception"
      then "No Bedrock models are available for your account"
      else exn_text aws e
  | ClientError _ => exn_text aws e
  end.

(** The [except] branch of [analyze_with_ai] (lines 315-323).  It prints the
    text of the exception before it annotates the records: when the console
    refuses the text, the branch raises and annotates nothing. *)
Definition on_total_failure (zombies : list zombie) (e : exn)
  : M (list zombie) :=
  run! lift (console_print ("AI analysis failed: " +:+ failure_text e)) in
  run! emit (AnalysisFailed e) in
  ret (map (set_analysis ai_unavailable) zombies).

(** *** Analyzer (lines 257-323) *)
Definition analyze_with_ai (self : hunter) (zombies : list zombie)
  : M (list zombie) :=
  match zombies with
  | [] => ret zombies
  | _ =>
      try_except
        (let! bedrock := lift (bedrock_client aws (bedrock_region self)) in
         let prompt := _create_analysis_prompt zombies in
         try_models self zombies prompt models_to_try)
        (on_total_failure zombies)
  end.

End Analyzer.

(** ** Region enumerator and command line (lines 17-32 and 405-479) *)

(** What the command prints beyond the output of the methods it calls. *)
Inductive cli_event : Type :=
| Run (ev : event)                    (* an event of a method of the class *)
| RegionListError (e : exn)           (* line 31, stderr *)
| TestingBedrock                      (* line 421 *)
| StartingHunt                        (* line 435 *)
| RunningAnalysis                     (* line 441 *)
| ManualGuidance                      (* lines 447-452 *)
| NothingToAnalyze                    (* line 454 *)
| JsonDump (file : string) (indent : option Z) (zombies : list zombie)
                                      (* lines 460 and 462 *)
| JsonSaved                           (* line 463 *)
| CredentialsNotFound                 (* line 474 *)
| UnexpectedError (e : exn).          (* line 478 *)

(** The computations of [main]: the events of the command, then an exception
    or a value. *)
Definition CLI (A : Type) : Type := list cli_event * res A.

Definition cli_ret {A} (a : A) : CLI A := ([], inr a).
Definition cli_emit (ev : cli_event) : CLI unit := ([ev], inr tt).

(** A call to a method of the class. *)
Definition call {A} (m : M A) : CLI A := (map Run (fst m), snd m).

Definition cli_bind {A B} (m : CLI A) (k : A -> CLI B) : CLI B :=
  match m with
  | (out, inl e) => (out, inl e)
  | (out, inr a) => let (out', r) := k a in (out ++ out', r)
  end.

Notation "'let*' x := m 'in' k" := (cli_bind m (fun x => k))
  (at level 10, x name, m at level 100, k at level 200, only parsing).
Notation "'run*' m 'in' k" := (cli_bind m (fun _ => k))
  (at level 10, m at level 100, k at level 200, only parsing).

(** The dict of lines 422-428. *)
Definition test_zombies : list zombie :=
  [{| resource_type := "ebs_volume";
      resource_id := "vol-test123";
      size := None;
      public_ip := None;
      region := "us-east-1";
      tags := [("Name", "test-volume"); ("Environment", "test")];
      cost_estimate := 1%float;
      ai_analysis := None |}].

(** [z.get('ai_analysis', {}).get('risk_score') != 'Unknown'] (line 445): a
    record without the key yields [None], which differs from the string. *)
Definition risk_differs_from_unknown (z : zombie) : bool :=
  match ai_analysis z with
  | Some a =>
      match risk_score a with
      | PStr s => negb (String.eqb s "Unknown")
      | _ => true
      end
  | None => true
  end.

Section CommandLine.
Variable aws : cloud.
Variable json_loads : string -> res pyval.
(** [client('ec2', 'us-east-1').describe_regions()], reduced to the names of
    [response['Regions']]. *)
Variable describe_regions : res (list string).

(** *** Region enumerator (lines 24-32) *)
Definition _get_regions : list cli_event * list string :=
  match describe_regions with
  | inr names => ([], names)
  | inl e => ([RegionListError e], ["us-east-1"])
  end.

(** [ZombieHunter(bedrock_region)] (lines 18-22); the session and the console
    are created without failure. *)
Definition new_hunter (bedrock_region : string) : CLI hunter :=
  let (out, names) := _get_regions in
  (out, inr {| regions := names; bedrock_region := bedrock_region |}).

(** Lines 438-454: the analysis, when requested, and the guidance printed
    when no record came back with a risk score other than Unknown. *)
Definition analysis_step (hunter : hunter) (analyze : bool)
    (zombies : list zombie) : CLI (list zombie) :=
  if analyze then
    match zombies with
    | [] => run* cli_emit NothingToAnalyze in cli_ret zombies
    | _ =>
        run* cli_emit RunningAnalysis in
        let* zombies := call (analyze_with_ai aws json_loads hunter zombies) in
        let ai_worked := existsb risk_differs_from_unknown zombies in
        run* (if ai_worked then cli_ret tt else cli_emit ManualGuidance) in
        cli_ret zombies
    end
  else cli_ret zombies.

(** Lines 456-470: the JSON file or the table, then the report when a name
    is given; an empty name counts as no name. *)
Definition output_step (zombies : list zombie) (output : option string)
    (pretty : bool) (report : option string) : CLI unit :=
  run* match output with
       | Some file =>
           run* cli_emit (JsonDump file (if pretty then Some 2 else None)
                            zombies) in
           cli_emit JsonSaved
       | None => call (display_table zombies)
       end in
  match report with
  | Some filename =>
      if String.eqb filename "" then cli_ret tt
      else call (generate_markdown_report aws zombies filename)
  | None => cli_ret tt
  end.

(** The [try] block of [main] (lines 417-470).  [regions] is the tuple of the
    repeated option, [output] the file of [--output], [report] the name of
    [--report]. *)
Definition main_body (regions : list string) (output : option string)
    (pretty analyze : bool) (bedrock_region : string) (report : option string)
    (test_bedrock : bool) : CLI unit :=
  let* hunter := new_hunter bedrock_region in
  if test_bedrock then
    run* cli_emit TestingBedrock in
    run* call (analyze_with_ai aws json_loads hunter test_zombies) in
    cli_ret tt
  else
    let scan_regions := match regions with [] => None | _ => Some regions end in
    run* cli_emit StartingHunt in
    let* zombies := call (hunt_zombies aws hunter scan_regions) in
    let* zombies := analysis_step hunter analyze zombies in
    output_step zombies output pretty report.

(** *** Command (lines 413-479): the output and the exit status.  The first
    handler takes [NoCredentialsError], the second every other exception. *)
Definition main (regions : list string) (output : option string)
    (pretty analyze : bool) (bedrock_region : string) (report : option string)
    (test_bedrock : bool) : list cli_event * Z :=
  match main_body regions output pretty analyze bedrock_region report
          test_bedrock with
  | (out, inr _) => (out, 0)
  | (out, inl (PyExc cls)) =>
      if String.eqb cls "NoCredentialsError"
      then (out ++ [CredentialsNotFound], 1)
      else (out ++ [UnexpectedError (PyExc cls)], 1)
  | (out, inl e) => (out ++ [UnexpectedError e], 1)
  end.

End CommandLine.

(** * Vocabulary of the statements *)

(** ** Rounding to two decimals *)

(** The exact value of a finite float, as a fraction [(a, b)] for [a / b]
    with [b] positive. *)
Definition float_fraction (x : float) : option (Z * Z) :=
  match Prim2SF x with
  | S754_zero _ => Some (0, 1)
  | S754_finite s m e =>
      let a := if s then Z.neg m else Z.pos m in
      Some match e with
           | Zneg p => (a, 2 ^ Z.pos p)
           | _ => (a * 2 ^ e, 1)
           end
  | _ => None
  end.


(** [k] hundredths is the decimal with two places nearest to [a / b]: they
    differ by half a hundredth at most, and by exactly half only when [k] is
    even. *)
Definition nearest_cent (v : Z * Z) (k : Z) : Prop :=
  let (a, b) := v in
  2 * Z.abs (100 * a - k * b) <= b
  /\ (2 * Z.abs (100 * a - k * b) = b -> Z.even k = true).

(** The double nearest to [k] hundredths: the quotient of [k] by 100 in
    binary64. *)
Definition float_of_cents (k : Z) : float :=
  match k with
  | Zpos p =>
      SF2Prim (SFdiv prec emax (S754_finite false p 0) (S754_finite false 100 0))
  | Zneg p =>
      SF2Prim (SFdiv prec emax (S754_finite true p 0) (S754_finite false 100 0))
  | Z0 => 0%float
  end.


(** The definitions of this part are not part of the program: they name what
    the statements talk about, and give the sample worlds on which the
    statements are exercised. *)

(** ** Scanners *)

(** The record is a volume found in region [r]. *)
Definition is_volume_of (r : string) (z : zombie) : bool :=
  String.eqb (resource_type z) "ebs_volume" && String.eqb (region z) r.

Definition not_volume_of (r : string) (z : zombie) : bool :=
  negb (is_volume_of r z).

(** ** Analyzer *)

(** The record has the ['ai_analysis'] key. *)
Definition annotated (z : zombie) : Prop := exists a, ai_analysis z = Some a.

(** Record [r] is record [z] with the annotation [a]. *)
Definition carries (a : analysis) (z r : zombie) : Prop :=
  scanned r = scanned z /\ ai_analysis r = Some a.

(** The console accepts the failure line of the analyzer for [e]. *)
Definition failure_line_prints (aws : cloud) (e : exn) : Prop :=
  console_print aws ("AI analysis failed: " +:+ failure_text aws e) = inr tt.

(** The identifiers to which a request was sent, in order. *)
Definition requests (out : list event) : list string :=
  flat_map (fun ev => match ev with InvokeModel _ m _ => [m] | _ => [] end) out.

(** A reply that makes the loop go on to the next identifier. *)
Definition unavailable_reply (r : res pyval) : Prop :=
  exists code,
    r = inl (ClientError code)
    /\ code ∈ ["ResourceNotFoundException"; "ValidationException";
               "AccessDeniedException"].

(** The text has no ['{'], or no ['}'], or what lies between the first ['{']
    and the last ['}'] is refused by [json.loads]. *)
Definition no_json_object (loads : string -> res pyval) (text : string) : Prop :=
  str_find "{" text = -1
  \/ str_rfind "}" text = -1
  \/ exists e,
       loads (slice text (str_find "{" text) (str_rfind "}" text + 1)) = inl e.

(** ** Entries of a parsed reply *)

(** The integer under ['resource_number'] of an entry that is an object. *)
Definition entry_number (entry : pyval) : option Z :=
  match entry with
  | PDict d =>
      match dict_get "resource_number" d with
      | Some (PInt n) => Some n
      | _ => None
      end
  | _ => None
  end.

(** The risk score and reason of an entry that has both keys. *)
Definition entry_analysis (entry : pyval) : option analysis :=
  match entry with
  | PDict d =>
      match dict_get "risk_score" d, dict_get "reason" d with
      | Some risk, Some why => Some (Analysis risk why)
      | _, _ => None
      end
  | _ => None
  end.

(** An entry the loop can apply to a list of [len] records: an object with an
    integer number, and with a risk score and a reason when that number is
    within bounds. *)
Definition well_formed (len : nat) (entry : pyval) : Prop :=
  exists n, entry_number entry = Some n
            /\ (1 <= n <= Z.of_nat len -> is_Some (entry_analysis entry)).

(** The annotation of the last entry numbered [i + 1], if there is one. *)
Fixpoint annotation_for (i : nat) (entries : list pyval) : option analysis :=
  match entries with
  | [] => None
  | entry :: entries' =>
      match annotation_for i entries' with
      | Some a => Some a
      | None =>
          if bool_decide (entry_number entry = Some (Z.of_nat i + 1))
          then entry_analysis entry else None
      end
  end.

(** The record with that annotation, or as it is when there is none. *)
Definition annotate_with (o : option analysis) (z : zombie) : zombie :=
  match o with
  | Some a => set_analysis a z
  | None => z
  end.

(** An entry as the prompt asks for it. *)
Definition analysis_entry (n : Z) (risk why : string) : pyval :=
  PDict [("resource_number", PInt n); ("risk_score", PStr risk);
         ("reason", PStr why)].

(** ** Risk buckets *)

(** The counters of the four buckets. *)
Definition risk_counts_of (low medium high unknown : Z) : gmap string Z :=
  <["Low" := low]> (<["Medium" := medium]> (
  <["High" := high]> (<["Unknown" := unknown]> ∅))).

(** The record is in bucket [b]. *)
Definition in_bucket (b : string) (z : zombie) : bool :=
  match risk_of z with
  | PStr s => String.eqb s b
  | _ => false
  end.

(** How many records are in bucket [b]. *)
Definition bucket_size (b : string) (zs : list zombie) : Z :=
  Z.of_nat (length (List.filter (in_bucket b) zs)).

(** A record the table can show: its risk score is one of the four buckets
    and its reason is a string. *)
Definition presentable (z : zombie) : Prop :=
  (exists s, risk_of z = PStr s /\ s ∈ ["Low"; "Medium"; "High"; "Unknown"])
  /\ exists why, reason_of z = PStr why.

(** ** Sample worlds *)

Definition sample_addresses : list aws_address :=
  [Address "eipalloc-1" "198.51.100.1" None None None;
   Address "eipalloc-2" "198.51.100.2" (Some "i-0abc") (Some "eni-1") None;
   Address "eipalloc-3" "198.51.100.3" None (Some "eni-2") (Some [Tag "env" "dev"])].

(** A stand-in for the console's reading of markup: it refuses the texts
    with a closing tag. *)
Fixpoint closing_tags_refused (text : string) : res unit :=
  match text with
  | String "[" (String "/" _) => inl MarkupError
  | String _ text' => closing_tags_refused text'
  | EmptyString => inr tt
  end.

(** Texts of exceptions without a bracket. *)
Definition plain_text (e : exn) : string :=
  match e with
  | ClientError code => "An error occurred (" +:+ code +:+ ")"
  | PyExc cls => cls
  end.

(** An account whose volume query is refused in eu-west-1 and which has no
    access to any model. *)
Definition sample_cloud : cloud :=
  {| describe_volumes := fun r =>
       if String.eqb r "eu-west-1" then inl (ClientError "UnauthorizedOperation")
       else inr [Volume "vol-1" 100 "gp3" None];
     describe_addresses := fun _ => inr sample_addresses;
     bedrock_client := fun _ => inr tt;
     invoke_model := fun _ _ _ => inl (ClientError "AccessDeniedException");
     now := "2024-01-01 00:00:00";
     exn_text := plain_text;
     render_markup := closing_tags_refused |}.

(** The same account with the volume query of eu-west-1 answered. *)
Definition healthy_cloud : cloud :=
  {| describe_volumes := fun r =>
       if String.eqb r "eu-west-1" then inr [Volume "vol-9" 20 "st1" None]
       else describe_volumes sample_cloud r;
     describe_addresses := describe_addresses sample_cloud;
     bedrock_client := bedrock_client sample_cloud;
     invoke_model := invoke_model sample_cloud;
     now := now sample_cloud;
     exn_text := exn_text sample_cloud;
     render_markup := render_markup sample_cloud |}.

(** The same account asked to scan a region whose endpoint cannot be
    reached (a mistyped name). *)
Definition unreachable_cloud : cloud :=
  {| describe_volumes := fun r =>
       if String.eqb r "us-east-9"
       then inl (PyExc "EndpointConnectionError")
       else describe_volumes sample_cloud r;
     describe_addresses := describe_addresses sample_cloud;
     bedrock_client := bedrock_client sample_cloud;
     invoke_model := invoke_model sample_cloud;
     now := now sample_cloud;
     exn_text := exn_text sample_cloud;
     render_markup := render_markup sample_cloud |}.

(** The same account asked for inference in a region given as [[/x]]: the
    client cannot be created, and the text of the exception quotes the
    region. *)
Definition misnamed_region_cloud : cloud :=
  {| describe_volumes := describe_volumes sample_cloud;
     describe_addresses := describe_addresses sample_cloud;
     bedrock_client := fun r =>
       if String.eqb r "[/x]" then inl (PyExc "InvalidRegionError")
       else inr tt;
     invoke_model := invoke_model sample_cloud;
     now := now sample_cloud;
     exn_text := fun e =>
       match e with
       | PyExc cls =>
           if String.eqb cls "InvalidRegionError"
           then "Provided region_name '[/x]' doesn't match a supported format."
           else plain_text e
       | ClientError _ => plain_text e
       end;
     render_markup := closing_tags_refused |}.

(** One volume and one idle address, as the scanners record them. *)
Definition sample_zombies : list zombie :=
  [volume_record "us-east-1" (Volume "vol-1" 100 "gp3" None) 8%float;
   eip_record "us-east-1" (Address "eipalloc-1" "198.51.100.1" None None None)].

(** The parsed body of a reply that carries [text]. *)
Definition envelope (text : string) : pyval :=
  PDict [("content", PList [PDict [("type", PStr "text"); ("text", PStr text)]])].

(** A stand-in for [json.loads] that knows the documents of a table and
    refuses every other string. *)
Definition table_loads (table : list (string * pyval)) (s : string) : res pyval :=
  match dict_get s table with
  | Some v => inr v
  | None => inl (PyExc "JSONDecodeError")
  end.

(** An inference service without access to the first two models; the third
    one answers with [third]. *)
Definition bedrock (third : res string) : cloud :=
  {| describe_volumes := describe_volumes sample_cloud;
     describe_addresses := describe_addresses sample_cloud;
     bedrock_client := fun _ => inr tt;
     invoke_model := fun _ model_id _ =>
       if String.eqb model_id "anthropic.claude-3-haiku-20240307-v1:0"
       then inl (ClientError "AccessDeniedException")
       else if String.eqb model_id "anthropic.claude-3-5-sonnet-20241022-v2:0"
       then inl (ClientError "ResourceNotFoundException")
       else third;
     now := now sample_cloud;
     exn_text := exn_text sample_cloud;
     render_markup := render_markup sample_cloud |}.

(** The document with the entries "1 is Low" and "2 is High", as text and
    parsed. *)
Definition two_entries_json : string :=
  "{" +:+ dq +:+ "analyses" +:+ dq +:+ ": [{"
  +:+ dq +:+ "resource_number" +:+ dq +:+ ": 1, "
  +:+ dq +:+ "risk_score" +:+ dq +:+ ": " +:+ dq +:+ "Low" +:+ dq +:+ ", "
  +:+ dq +:+ "reason" +:+ dq +:+ ": " +:+ dq +:+ "Test volume" +:+ dq +:+ "}, {"
  +:+ dq +:+ "resource_number" +:+ dq +:+ ": 2, "
  +:+ dq +:+ "risk_score" +:+ dq +:+ ": " +:+ dq +:+ "High" +:+ dq +:+ ", "
  +:+ dq +:+ "reason" +:+ dq +:+ ": " +:+ dq +:+ "No tags" +:+ dq +:+ "}]}".

Definition two_entries : pyval :=
  PDict [("analyses", PList [analysis_entry 1 "Low" "Test volume";
                             analysis_entry 2 "High" "No tags"])].

(** A parsed reply that rates the only resource with a word of its own. *)
Definition critical_reply : pyval :=
  PDict [("analyses",
          PList [analysis_entry 1 "Critical" "Attached to a production database"])].

(** ** Texts and documents *)

(** The character occurs in the string. *)
Fixpoint has_char (c : ascii) (s : string) : bool :=
  match s with
  | EmptyString => false
  | String a s' => Ascii.eqb a c || has_char c s'
  end.

(** The text has both braces and [json.loads] turns what lies between the
    first ['{'] and the last ['}'] into [data]. *)
Definition parsed_object (loads : string -> res pyval) (text : string)
    (data : pyval) : Prop :=
  str_find "{" text <> -1
  /\ str_rfind "}" text <> -1
  /\ loads (slice text (str_find "{" text) (str_rfind "}" text + 1)) = inr data.

(** What the merge does to a record that no entry names. *)
Definition defaulted (z : zombie) : zombie :=
  match ai_analysis z with
  | Some _ => z
  | None =>
      set_analysis
        (Analysis (PStr "Unknown")
                  (PStr "Analysis not available for this resource")) z
  end.

(** ** Findings *)

(** A record as a scanner builds it: not annotated, and either a volume with
    its size or an address with its public IP and the flat estimate. *)
Definition fresh_finding (z : zombie) : Prop :=
  ai_analysis z = None
  /\ ((resource_type z = "ebs_volume" /\ is_Some (size z) /\ public_ip z = None)
      \/ (resource_type z = "elastic_ip" /\ size z = None
          /\ is_Some (public_ip z) /\ cost_estimate z = 3.65%float)).

(** The regions whose scan was announced, in order. *)
Definition scanned_regions (out : list event) : list string :=
  flat_map (fun ev => match ev with ScanningRegion r => [r] | _ => [] end) out.

(** ** Rows and reports *)

(** The row shows the record: its id, region and estimate, its risk score,
    and its reason as [display_reason] renders it. *)
Definition row_shows (z : zombie) (r : row) : Prop :=
  row_type r = title (replace_char "_" " " (resource_type z))
  /\ row_id r = resource_id z
  /\ row_region r = region z
  /\ row_cost r = cost_estimate z
  /\ risk_of z = PStr (row_risk r)
  /\ row_risk_style r = default "dim" (risk_colors !! row_risk r)
  /\ display_reason (reason_of z) = inr (row_reason r).

(** No cell of the record's row has a bracket (the type, the identifier, the
    region, and the reason when it is a string): the console prints such
    cells as they are. *)
Definition markup_free (z : zombie) : Prop :=
  str_find "[" (resource_type z) = -1
  /\ str_find "[" (resource_id z) = -1
  /\ str_find "[" (region z) = -1
  /\ match reason_of z with
     | PStr why => str_find "[" why = -1
     | _ => True
     end.

(** A record the risk counters can count: its risk score is one of the four
    buckets. *)
Definition countable (z : zombie) : Prop :=
  exists s, risk_of z = PStr s /\ s ∈ ["Low"; "Medium"; "High"; "Unknown"].

(** A record without a rating of the model: not annotated, or annotated with
    one of the three placeholders of the analyzer. *)
Definition unrated (z : zombie) : Prop :=
  ai_analysis z = None
  \/ ai_analysis z = Some ai_unavailable
  \/ ai_analysis z = Some parse_failed
  \/ ai_analysis z = Some not_available.

(** ** Runs of the command *)


(** The regions of the hunt of [main]: the given ones, or all when none is
    given. *)
Definition regions_option (regions : list string) : option (list string) :=
  match regions with
  | [] => None
  | _ => Some regions
  end.


(** A record annotated with one of the three placeholders of the analyzer. *)
Definition placeholder_only (z : zombie) : Prop :=
  ai_analysis z = Some ai_unavailable
  \/ ai_analysis z = Some parse_failed
  \/ ai_analysis z = Some not_available.


(** The fields of a record that the prompt builder reads. *)
Definition prompt_view (z : zombie)
  : string * string * string * list (string * string) * option Z
    * option string :=
  (resource_type z, resource_id z, region z, tags z, size z, public_ip z).

(** * Properties *)

(** ** The monad *)

Lemma bind_ret_l {A B} (a : A) (k : A -> M B) : bind (ret a) k = k a.
Proof. unfold bind, ret. by destruct (k a). Qed.

Lemma bind_lift_inr {A B} (a : A) (k : A -> M B) : bind (lift (inr a)) k = k a.
Proof. apply bind_ret_l. Qed.

Lemma bind_lift_inl {A B} (e : exn) (k : A -> M B) :
  bind (lift (inl e)) k = ([], inl e).
Proof. reflexivity. Qed.

Lemma bind_emit {B} (ev : event) (k : unit -> M B) :
  bind (emit ev) k = (ev :: fst (k tt), snd (k tt)).
Proof. unfold bind, emit. by destruct (k tt). Qed.

(** A sequence that returns has returned at both steps. *)
Lemma bind_inr_inv {A B} (m : M A) (k : A -> M B) out b :
  bind m k = (out, inr b) ->
  exists o1 a o2, m = (o1, inr a) /\ k a = (o2, inr b) /\ out = o1 ++ o2.
Proof.
  destruct m as [o1 [e | a]]; simpl; [discriminate |].
  destruct (k a) as [o2 r] eqn:Hk. intros [= <- ->]. by exists o1, a, o2.
Qed.

Lemma for_each_invariant {A B} (P : B -> Prop) (body : B -> A -> M B) :
  (forall acc x out acc', P acc -> body acc x = (out, inr acc') -> P acc') ->
  forall l acc out r, P acc -> for_each body l acc = (out, inr r) -> P r.
Proof.
  intros Hbody. induction l as [| x l IH]; simpl; intros acc out r Hacc Hrun.
  - by injection Hrun as _ <-.
  - apply bind_inr_inv in Hrun as (o1 & acc' & o2 & H1 & H2 & _). eauto.
Qed.

(** ** Cost estimator *)


(** Values of [round] as Python prints them: ties go to the even digit of
    the exact binary value, which for 2.675 and 0.025 lies off the tie. *)
Example round2_values :
  round2 0.125%float = 0.12%float /\ round2 2.675%float = 2.67%float
  /\ round2 0.025%float = 0.03%float /\ round2 (-0.001)%float = (-0)%float
  /\ round2 1e22%float = 1e22%float.
Proof. repeat split; reflexivity. Qed.










(** The product is the binary one: 27 GB of st1 cost 1.2149999999999999 in
    binary64, which is nearer to 1.21 than to 1.22. *)
Example estimate_st1_27 :
  _estimate_ebs_cost 27 "st1" = inr 1.21%float
  /\ float_fraction (27 * 0.045)%float
     = Some (5471873547255152, 2 ^ 52)
  /\ nearest_cent (5471873547255152, 2 ^ 52) 121
  /\ float_of_cents 121 = 1.21%float.
Proof. repeat split; vm_compute; try reflexivity; congruence. Qed.

Example estimate_gp3_100 : _estimate_ebs_cost 100 "gp3" = inr 8%float.
Proof. reflexivity. Qed.

Example estimate_unknown_type : _estimate_ebs_cost 500 "gp9" = inr 50%float.
Proof. reflexivity. Qed.

(** ** Scanners *)

(** The loop of the static-IP scanner appends the records of the idle
    addresses, in order. *)
Lemma idle_loop (r : string) (addresses : list aws_address) (idle_ips : list zombie) :
  for_each
    (fun idle_ips address =>
       if is_idle address
       then ret (idle_ips ++ [eip_record r address])
       else ret idle_ips)
    addresses idle_ips
  = ret (idle_ips ++ map (eip_record r) (List.filter is_idle addresses)).
Proof.
  revert idle_ips. induction addresses as [| a l IH]; intros acc; simpl.
  - by rewrite app_nil_r.
  - destruct (is_idle a); rewrite bind_ret_l, IH; [| done].
    simpl. by rewrite <- app_assoc.
Qed.

Lemma is_idle_spec (a : aws_address) :
  is_idle a = true <-> InstanceId a = None /\ NetworkInterfaceId a = None.
Proof.
  unfold is_idle. destruct (InstanceId a), (NetworkInterfaceId a); intuition congruence.
Qed.

(** C3: for the addresses the query returns, the scanner's output is the
    records of the idle ones, one for each and in order: an address with
    neither an instance nor a network interface has its record in the output,
    every record of the output comes from such an address, and every record
    carries the flat estimate 3.65. *)
Theorem idle_elastic_ips_exactly (aws : cloud) (r : string)
    (addresses : list aws_address) :
  describe_addresses aws r = inr addresses ->
  exists found,
    find_idle_elastic_ips aws r = ([], inr found)
    /\ found = map (eip_record r) (List.filter is_idle addresses)
    /\ (forall a, In a addresses ->
          InstanceId a = None /\ NetworkInterfaceId a = None ->
          In (eip_record r a) found)
    /\ (forall z, In z found ->
          exists a, In a addresses /\ z = eip_record r a
                    /\ InstanceId a = None /\ NetworkInterfaceId a = None)
    /\ (forall z, In z found -> cost_estimate z = 3.65%float).
Proof.
  intros Hq. eexists. split.
  - unfold find_idle_elastic_ips. rewrite Hq, bind_lift_inr, idle_loop.
    reflexivity.
  - split; [reflexivity |]. simpl. repeat split.
    + intros a Ha Hidle. apply in_map, filter_In. split; [done |].
      by apply is_idle_spec.
    + intros z Hz. apply in_map_iff in Hz as (a & <- & Ha).
      apply filter_In in Ha as [Ha Hidle]. apply is_idle_spec in Hidle.
      by exists a.
    + intros z Hz. apply in_map_iff in Hz as (a & <- & _). reflexivity.
Qed.

Lemma idle_elastic_ips_exactly_witness :
  exists found,
    find_idle_elastic_ips sample_cloud "us-east-1" = ([], inr found)
    /\ length found = 1%nat.
Proof.
  destruct (idle_elastic_ips_exactly sample_cloud "us-east-1" sample_addresses
              eq_refl) as (found & Hrun & -> & _).
  exists (map (eip_record "us-east-1") (List.filter is_idle sample_addresses)).
  split; [exact Hrun | reflexivity].
Defined.

(** *** Isolation of a failed volume scan *)

(** A scanner asks the cloud about its own region only. *)
Lemma find_unattached_volumes_ext (aws aws' : cloud) (r : string) :
  describe_volumes aws' r = describe_volumes aws r ->
  find_unattached_volumes aws' r = find_unattached_volumes aws r.
Proof. unfold find_unattached_volumes. by intros ->. Qed.

Lemma find_idle_elastic_ips_ext (aws aws' : cloud) (r : string) :
  describe_addresses aws' r = describe_addresses aws r ->
  find_idle_elastic_ips aws' r = find_idle_elastic_ips aws r.
Proof. unfold find_idle_elastic_ips. by intros ->. Qed.

Lemma try_except_inr_inv {A} (m : M A) (h : exn -> M A) out a :
  try_except m h = (out, inr a) ->
  m = (out, inr a)
  \/ exists o1 e o2, m = (o1, inl e) /\ h e = (o2, inr a) /\ out = o1 ++ o2.
Proof.
  destruct m as [o1 [e | a']]; simpl.
  - destruct (h e) as [o2 r] eqn:Hh. intros [= <- ->]. right. by exists o1, e, o2.
  - intros [= <- <-]. by left.
Qed.

(** Every record of the volume scanner is a volume of the scanned region. *)
Lemma find_unattached_volumes_records (aws : cloud) (r : string) out volumes :
  find_unattached_volumes aws r = (out, inr volumes) ->
  Forall (fun z => resource_type z = "ebs_volume" /\ region z = r) volumes.
Proof.
  unfold find_unattached_volumes. intros Hrun.
  apply try_except_inr_inv in Hrun as [Hrun | (o1 & e & o2 & _ & Hh & _)].
  - apply bind_inr_inv in Hrun as (o1 & response & o2 & _ & Hloop & _).
    revert Hloop. apply for_each_invariant; [| constructor].
    intros acc volume o acc' Hacc Hbody.
    apply bind_inr_inv in Hbody as (? & cost & ? & _ & Hret & _).
    injection Hret as _ <-. apply Forall_app. split; [done |].
    by repeat constructor.
  - destruct e; [| discriminate].
    rewrite bind_emit in Hh. injection Hh as _ <-. constructor.
Qed.

(** Every record of the static-IP scanner is an address of the scanned
    region. *)
Lemma find_idle_elastic_ips_records (aws : cloud) (r : string) out ips :
  find_idle_elastic_ips aws r = (out, inr ips) ->
  Forall (fun z => resource_type z = "elastic_ip" /\ region z = r) ips.
Proof.
  unfold find_idle_elastic_ips. intros Hrun.
  apply try_except_inr_inv in Hrun as [Hrun | (o1 & e & o2 & _ & Hh & _)].
  - apply bind_inr_inv in Hrun as (o1 & response & o2 & _ & Hloop & _).
    rewrite idle_loop in Hloop. injection Hloop as _ <-. simpl.
    apply Forall_forall. intros z Hz%list_elem_of_In.
    apply in_map_iff in Hz as (a & <- & _). done.
  - destruct e; [| discriminate].
    rewrite bind_emit in Hh. injection Hh as _ <-. constructor.
Qed.

(** The scan of a region whose volume query is refused. *)
Lemma find_unattached_volumes_client_error (aws : cloud) (r code : string) :
  describe_volumes aws r = inl (ClientError code) ->
  find_unattached_volumes aws r = ([RegionError r (ClientError code)], inr []).
Proof. unfold find_unattached_volumes. by intros ->. Qed.

Lemma filter_keep_all {A} (f : A -> bool) (l : list A) :
  Forall (fun x => f x = true) l -> List.filter f l = l.
Proof.
  induction 1 as [| x l Hx _ IH]; simpl; [done |]. by rewrite Hx, IH.
Qed.

Lemma filter_drop_all {A} (f : A -> bool) (l : list A) :
  Forall (fun x => f x = false) l -> List.filter f l = [].
Proof.
  induction 1 as [| x l Hx _ IH]; simpl; [done |]. by rewrite Hx.
Qed.

Section Isolation.
Variables (aws aws' : cloud) (R code : string).
Hypothesis refused : describe_volumes aws R = inl (ClientError code).
Hypothesis same_volumes :
  forall r, r <> R -> describe_volumes aws' r = describe_volumes aws r.
Hypothesis same_addresses :
  forall r, describe_addresses aws' r = describe_addresses aws r.

Lemma scan_region_isolated (r : string) acc acc' out' zs' :
  scan_region aws' acc' r = (out', inr zs') ->
  exists out found',
    zs' = acc' ++ found'
    /\ scan_region aws acc r = (out, inr (acc ++ List.filter (not_volume_of R) found')).
Proof.
  unfold scan_region. rewrite !bind_emit. intros [= <- Hrun].
  destruct (find_unattached_volumes aws' r) as [ov [e | volumes]] eqn:Hv;
    [discriminate |].
  destruct (find_idle_elastic_ips aws' r) as [oi [e | ips]] eqn:Hi;
    [discriminate |].
  simpl in Hrun. injection Hrun as <-.
  pose proof (find_unattached_volumes_records _ _ _ _ Hv) as Hvs.
  pose proof (find_idle_elastic_ips_records _ _ _ _ Hi) as His.
  rewrite (find_idle_elastic_ips_ext aws aws') in Hi by apply same_addresses.
  assert (List.filter (not_volume_of R) ips = ips) as Hkeep.
  { apply filter_keep_all. eapply Forall_impl; [exact His |].
    intros z [Ht _]. unfold not_volume_of, is_volume_of. by rewrite Ht. }
  destruct (decide (r = R)) as [-> | Hne].
  - rewrite (find_unattached_volumes_client_error _ _ _ refused), Hi. simpl.
    eexists _, (volumes ++ ips). split; [by rewrite app_assoc |].
    f_equal. f_equal. rewrite List.filter_app, Hkeep, filter_drop_all.
    + by rewrite app_nil_r.
    + eapply Forall_impl; [exact Hvs |].
      intros z [Ht Hr]. unfold not_volume_of, is_volume_of.
      by rewrite Ht, Hr, !String.eqb_refl.
  - rewrite (find_unattached_volumes_ext aws aws') in Hv by by apply same_volumes.
    rewrite Hv, Hi. simpl.
    eexists _, (volumes ++ ips). split; [by rewrite app_assoc |].
    f_equal. f_equal. rewrite List.filter_app, Hkeep, filter_keep_all.
    + by rewrite app_assoc.
    + eapply Forall_impl; [exact Hvs |].
      intros z [_ Hr]. unfold not_volume_of, is_volume_of.
      apply String.eqb_neq in Hne. rewrite Hr, Hne.
      by rewrite andb_false_r.
Qed.

Lemma hunt_loop_isolated (rs : list string) : forall acc acc' out' zs',
  for_each (scan_region aws') rs acc' = (out', inr zs') ->
  exists out found',
    zs' = acc' ++ found'
    /\ for_each (scan_region aws) rs acc
       = (out, inr (acc ++ List.filter (not_volume_of R) found')).
Proof.
  induction rs as [| r rs IH]; simpl; intros acc acc' out' zs' Hrun.
  - injection Hrun as _ <-. exists [], []. by rewrite !app_nil_r.
  - apply bind_inr_inv in Hrun as (o1 & mid' & o2 & Hscan & Hrest & _).
    destruct (scan_region_isolated r acc _ _ _ Hscan)
      as (o & f1 & -> & Hscan1).
    destruct (IH (acc ++ List.filter (not_volume_of R) f1) _ _ _ Hrest)
      as (o' & f2 & -> & Hrest1).
    rewrite Hscan1. simpl. rewrite Hrest1.
    eexists _, (f1 ++ f2). split; [by rewrite app_assoc |].
    by rewrite List.filter_app, app_assoc.
Qed.
End Isolation.

(** C7, as amended: when the volume query of region [R] is refused with a
    client error, the volume scanner logs it and returns no record, and the
    hunt goes on:
    compared with any run that differs in the answer to that one query only,
    the hunt returns the same records, in the same order, except for the
    volumes of [R]. *)
Theorem volume_scan_failure_isolated (aws aws' : cloud) (self : hunter)
    (rs : option (list string)) (R code : string) out' zs' :
  describe_volumes aws R = inl (ClientError code) ->
  (forall r, r <> R -> describe_volumes aws' r = describe_volumes aws r) ->
  (forall r, describe_addresses aws' r = describe_addresses aws r) ->
  hunt_zombies aws' self rs = (out', inr zs') ->
  find_unattached_volumes aws R = ([RegionError R (ClientError code)], inr [])
  /\ exists out,
       hunt_zombies aws self rs
       = (out, inr (List.filter (not_volume_of R) zs')).
Proof.
  intros Hrefused Hvol Haddr Hrun. split.
  - by apply find_unattached_volumes_client_error.
  - unfold hunt_zombies in *.
    destruct (hunt_loop_isolated aws aws' R code Hrefused Hvol Haddr _ [] _ _ _ Hrun)
      as (out & found & -> & Hrun1).
    exists out. exact Hrun1.
Qed.

Lemma volume_scan_failure_isolated_witness :
  exists out,
    hunt_zombies sample_cloud (Hunter [] "us-east-1")
      (Some ["us-east-1"; "eu-west-1"])
    = (out,
       inr [volume_record "us-east-1" (Volume "vol-1" 100 "gp3" None) 8%float;
            eip_record "us-east-1"
              (Address "eipalloc-1" "198.51.100.1" None None None);
            eip_record "eu-west-1"
              (Address "eipalloc-1" "198.51.100.1" None None None)]).
Proof.
  refine (proj2 (volume_scan_failure_isolated sample_cloud healthy_cloud
                   (Hunter [] "us-east-1") (Some ["us-east-1"; "eu-west-1"])
                   "eu-west-1" "UnauthorizedOperation" _ _
                   eq_refl _ (fun _ => eq_refl) eq_refl)).
  intros r Hr. simpl. apply String.eqb_neq in Hr. by rewrite Hr.
Defined.

(** C7 as it is stated fails for a failure that is not a client error: with
    the endpoint of region us-east-9 out of reach, the volume scanner neither
    logs nor returns an empty list, it raises; the hunt over us-east-1 and
    us-east-9 raises too, and the records of us-east-1 are lost. *)
Lemma volume_scan_endpoint_error_ends_hunt :
  describe_volumes unreachable_cloud "us-east-9"
  = inl (PyExc "EndpointConnectionError")
  /\ find_unattached_volumes unreachable_cloud "us-east-9"
     = ([], inl (PyExc "EndpointConnectionError"))
  /\ hunt_zombies unreachable_cloud (Hunter [] "us-east-1")
       (Some ["us-east-1"; "us-east-9"])
     = ([ScanningRegion "us-east-1"; ScanningRegion "us-east-9"],
        inl (PyExc "EndpointConnectionError"))
  /\ hunt_zombies unreachable_cloud (Hunter [] "us-east-1")
       (Some ["us-east-1"])
     = ([ScanningRegion "us-east-1"],
        inr [volume_record "us-east-1" (Volume "vol-1" 100 "gp3" None) 8%float;
             eip_record "us-east-1"
               (Address "eipalloc-1" "198.51.100.1" None None None)]).
Proof. repeat split. Qed.

(** The isolation covers client errors only: any other exception of the
    volume query leaves the scanner and ends the hunt. *)
Lemma other_exception_ends_hunt (aws : cloud) (self : hunter) (R cls : string)
    (rs : list string) :
  describe_volumes aws R = inl (PyExc cls) ->
  find_unattached_volumes aws R = ([], inl (PyExc cls))
  /\ hunt_zombies aws self (Some (R :: rs))
     = ([ScanningRegion R], inl (PyExc cls)).
Proof.
  intros Hq.
  assert (find_unattached_volumes aws R = ([], inl (PyExc cls))) as Hscan.
  { unfold find_unattached_volumes. by rewrite Hq. }
  split; [exact Hscan |].
  unfold hunt_zombies. cbn [for_each]. unfold scan_region.
  by rewrite bind_emit, Hscan.
Qed.

(** ** Merge *)

Lemma scanned_set_analysis (a : analysis) (z : zombie) :
  scanned (set_analysis a z) = scanned z.
Proof. reflexivity. Qed.

Lemma set_analysis_twice (a b : analysis) (z : zombie) :
  set_analysis b (set_analysis a z) = set_analysis b z.
Proof. reflexivity. Qed.

Lemma scanned_fill_default (z : zombie) : scanned (fill_default z) = scanned z.
Proof. unfold fill_default. by destruct (ai_analysis z). Qed.

Lemma annotated_fill_default (z : zombie) : annotated (fill_default z).
Proof.
  unfold fill_default, annotated. destruct (ai_analysis z) eqn:Ha; eauto.
Qed.

Lemma map_scanned_set_analysis (a : analysis) (zs : list zombie) :
  map scanned (map (set_analysis a) zs) = map scanned zs.
Proof. rewrite map_map. by apply map_ext. Qed.

Lemma map_scanned_alter (a : analysis) (i : nat) (zs : list zombie) :
  map scanned (alter (set_analysis a) i zs) = map scanned zs.
Proof.
  revert i. induction zs as [| z zs IH]; intros [| i]; simpl; [done.. |].
  f_equal. apply IH.
Qed.

(** An iteration of the merge loop changes annotations only. *)
Lemma merge_entry_shape (zs zs' : list zombie) (entry : pyval) :
  merge_entry zs entry = inr zs' ->
  length zs' = length zs /\ map scanned zs' = map scanned zs.
Proof.
  unfold merge_entry.
  destruct (subscript_str entry "resource_number") as [e | number];
    [discriminate |]; simpl.
  destruct (minus_one number) as [e | [| | i | f | | |]];
    simpl; try discriminate.
  - destruct ((0 <=? i) && (i <? Z.of_nat (length zs))); [| by intros [= <-]].
    destruct (subscript_str entry "risk_score") as [e | risk];
      [discriminate |]; simpl.
    destruct (subscript_str entry "reason") as [e | why];
      [discriminate |]; simpl.
    intros [= <-]. split; [apply length_alter | apply map_scanned_alter].
  - match goal with |- context [if ?c then _ else _] => destruct c end;
      [| by intros [= <-]].
    destruct (subscript_str entry "risk_score") as [e | risk];
      [discriminate |]; simpl.
    by destruct (subscript_str entry "reason").
Qed.

(** So does the whole loop, whether it completes or raises. *)
Lemma merge_entries_shape (entries : list pyval) : forall zs r zs',
  merge_entries entries zs = (r, zs') ->
  length zs' = length zs /\ map scanned zs' = map scanned zs.
Proof.
  induction entries as [| entry entries IH]; simpl; intros zs r zs' Hrun.
  - by injection Hrun as _ <-.
  - destruct (merge_entry zs entry) as [e | zs1] eqn:Hentry.
    + by injection Hrun as _ <-.
    + apply merge_entry_shape in Hentry as [Hlen Hsc].
      apply IH in Hrun as [Hlen' Hsc']. split; congruence.
Qed.

Lemma on_parse_failure_run (e : exn) (zs : list zombie) :
  on_parse_failure e zs = ([ParseFailed e], inr (map (set_analysis parse_failed) zs)).
Proof. reflexivity. Qed.

(** Overwriting every annotation forgets what the loop had written. *)
Lemma overwrite_forgets (a : analysis) (zs zs' : list zombie) :
  map scanned zs' = map scanned zs ->
  map (set_analysis a) zs' = map (set_analysis a) zs.
Proof.
  intros Hsc.
  assert (forall l, map (set_analysis a) l = map (set_analysis a) (map scanned l))
    as Hvia by (intros l; rewrite map_map; by apply map_ext).
  by rewrite (Hvia zs'), (Hvia zs), Hsc.
Qed.

(** The merge returns, whatever the text: a list of the same records, each
    of them annotated. *)
Lemma merge_analysis_total (loads : string -> res pyval) (zs : list zombie)
    (analysis_text : pyval) :
  exists out merged,
    _merge_analysis loads zs analysis_text = (out, inr merged)
    /\ length merged = length zs
    /\ map scanned merged = map scanned zs
    /\ Forall annotated merged
    /\ Forall (fun ev => exists e, ev = ParseFailed e) out.
Proof.
  unfold _merge_analysis.
  assert (forall e l, map scanned l = map scanned zs ->
    exists out merged,
      on_parse_failure e l = (out, inr merged)
      /\ length merged = length zs
      /\ map scanned merged = map scanned zs
      /\ Forall annotated merged
      /\ Forall (fun ev => exists e, ev = ParseFailed e) out) as Hfail.
  { intros e l Hl. rewrite on_parse_failure_run. eexists _, _.
    split; [reflexivity |]. repeat split.
    - rewrite length_map. apply (f_equal length) in Hl.
      by rewrite !length_map in Hl.
    - by rewrite map_scanned_set_analysis.
    - apply Forall_forall. intros z Hz%list_elem_of_In.
      apply in_map_iff in Hz as (z0 & <- & _). by eexists.
    - repeat constructor. by eexists. }
  destruct (parse_entries loads analysis_text) as [e | entries]; [by apply Hfail |].
  destruct (merge_entries entries zs) as [[e |] zs'] eqn:Hloop;
    apply merge_entries_shape in Hloop as [Hlen Hsc]; [by apply Hfail |].
  eexists _, _. split; [reflexivity |]. repeat split.
  - by rewrite length_map.
  - rewrite map_map. rewrite <- Hsc. apply map_ext, scanned_fill_default.
  - apply Forall_forall. intros z Hz%list_elem_of_In.
    apply in_map_iff in Hz as (z0 & <- & _). apply annotated_fill_default.
  - constructor.
Qed.

(** ** Model selection *)

Lemma requests_app (o1 o2 : list event) :
  requests (o1 ++ o2) = requests o1 ++ requests o2.
Proof. apply flat_map_app. Qed.

Lemma requests_parse_failed (out : list event) :
  Forall (fun ev => exists e, ev = ParseFailed e) out -> requests out = [].
Proof.
  induction 1 as [| ev out [e ->] _ IH]; [done |]. exact IH.
Qed.

Section Selection.
Variables (aws : cloud) (loads : string -> res pyval) (self : hunter).
Variables (zombies : list zombie) (prompt : string).

Local Abbreviation reply := (request aws loads self prompt).
Local Abbreviation run := (try_models aws loads self zombies prompt).

(** One round of the loop, by the reply to its request. *)
Lemma try_models_round (m : string) (models : list string) :
  run (m :: models) =
  match reply m with
  | inr text =>
      ([TryingModel m; InvokeModel (bedrock_region self) m prompt;
        ModelSucceeded m] ++ fst (_merge_analysis loads zombies text),
       snd (_merge_analysis loads zombies text))
  | inl (ClientError code) =>
      if model_unavailable code
      then ([TryingModel m; InvokeModel (bedrock_region self) m prompt;
             ModelNotAvailable m code] ++ fst (run models),
            snd (run models))
      else ([TryingModel m; InvokeModel (bedrock_region self) m prompt],
            inl (ClientError code))
  | inl e =>
      ([TryingModel m; InvokeModel (bedrock_region self) m prompt], inl e)
  end.
Proof.
  simpl.
  destruct (request aws loads self prompt m) as [[code | cls] | text]; simpl.
  - destruct (model_unavailable code); [| reflexivity].
    by destruct (try_models aws loads self zombies prompt models).
  - reflexivity.
  - destruct (merge_analysis_total loads zombies text)
      as (out & merged & -> & _). reflexivity.
Qed.

Lemma unavailable_reply_round (m : string) (models : list string) :
  unavailable_reply (reply m) ->
  exists out,
    run (m :: models) = (out ++ fst (run models), snd (run models))
    /\ requests out = [m].
Proof.
  intros (code & Hreply & Hcode). rewrite try_models_round, Hreply.
  unfold model_unavailable. rewrite bool_decide_eq_true_2 by done.
  by eexists.
Qed.

Lemma decisive_error_round (m : string) (models : list string) (e : exn) :
  reply m = inl e -> ~ unavailable_reply (reply m) ->
  exists out, run (m :: models) = (out, inl e) /\ requests out = [m].
Proof.
  intros Hreply Hnot. rewrite try_models_round, Hreply.
  destruct e as [code | cls]; [| by eexists].
  unfold model_unavailable. case_bool_decide as Hcode; [| by eexists].
  destruct Hnot. exists code. by rewrite Hreply.
Qed.

Lemma answered_round (m : string) (models : list string) (text : pyval) :
  reply m = inr text ->
  exists out,
    run (m :: models) = (out, snd (_merge_analysis loads zombies text))
    /\ requests out = [m].
Proof.
  intros Hreply. rewrite try_models_round, Hreply. eexists. split; [done |].
  destruct (merge_analysis_total loads zombies text)
    as (out & merged & -> & _ & _ & _ & Hout).
  simpl. by rewrite (requests_parse_failed _ Hout).
Qed.

(** The identifiers whose reply is "unavailable" are passed one by one. *)
Lemma try_models_skip (tried rest : list string) :
  Forall (fun m => unavailable_reply (reply m)) tried ->
  exists out,
    run (tried ++ rest) = (out ++ fst (run rest), snd (run rest))
    /\ requests out = tried.
Proof.
  induction 1 as [| m tried Hm _ (out & Hrun & Hreq)].
  - exists []. simpl. by destruct (run rest).
  - destruct (unavailable_reply_round m (tried ++ rest) Hm)
      as (o & Hround & Hreq1).
    exists (o ++ out). change ((m :: tried) ++ rest) with (m :: tried ++ rest).
    rewrite Hround, Hrun. simpl. rewrite app_assoc. split; [done |].
    by rewrite requests_app, Hreq1, Hreq.
Qed.

(** The loop returns a list of the same records, all annotated, or raises. *)
Lemma try_models_result (models : list string) out merged :
  run models = (out, inr merged) ->
  length merged = length zombies
  /\ map scanned merged = map scanned zombies
  /\ Forall annotated merged.
Proof.
  revert out. induction models as [| m models IH]; intros out.
  - discriminate.
  - rewrite try_models_round.
    destruct (reply m) as [[code | cls] | text].
    + destruct (model_unavailable code); [| discriminate].
      destruct (run models) as [o [e | r]]; simpl; [discriminate |].
      intros [= _ <-]. by eapply IH.
    + discriminate.
    + destruct (merge_analysis_total loads zombies text)
        as (o & r & -> & Hlen & Hsc & Hann & _). simpl.
      by intros [= _ <-].
Qed.
End Selection.

(** ** Analyzer *)

(** The analyzer on a list that is not empty, by what the client and the
    loop do. *)
Lemma analyze_with_ai_run (aws : cloud) (loads : string -> res pyval)
    (self : hunter) (z : zombie) (zs : list zombie) :
  let zombies := z :: zs in
  analyze_with_ai aws loads self zombies =
  match bedrock_client aws (bedrock_region self) with
  | inl e => on_total_failure aws zombies e
  | inr _ =>
      match try_models aws loads self zombies
              (_create_analysis_prompt zombies) models_to_try with
      | (out, inl e) =>
          (out ++ fst (on_total_failure aws zombies e),
           snd (on_total_failure aws zombies e))
      | (out, inr merged) => (out, inr merged)
      end
  end.
Proof.
  intros zombies. unfold analyze_with_ai. fold zombies.
  change (match zombies with [] => ret zombies | _ => ?body end) with body.
  destruct (bedrock_client aws (bedrock_region self)) as [e | []].
  - simpl. by destruct (on_total_failure aws zombies e).
  - rewrite bind_lift_inr.
    destruct (try_models aws loads self zombies
                (_create_analysis_prompt zombies) models_to_try)
      as [out [e | merged]]; [| done].
    simpl. by destruct (on_total_failure aws zombies e).
Qed.

(** The handler of the analyzer, by what the console does with the failure
    line. *)
Lemma on_total_failure_run (aws : cloud) (zombies : list zombie) (e : exn) :
  on_total_failure aws zombies e =
  match console_print aws ("AI analysis failed: " +:+ failure_text aws e) with
  | inl e' => ([], inl e')
  | inr _ =>
      ([AnalysisFailed e], inr (map (set_analysis ai_unavailable) zombies))
  end.
Proof.
  unfold on_total_failure.
  by destruct (console_print aws
                 ("AI analysis failed: " +:+ failure_text aws e)) as [e' | []].
Qed.

Lemma on_total_failure_printed (aws : cloud) (zombies : list zombie) (e : exn) :
  failure_line_prints aws e ->
  on_total_failure aws zombies e
  = ([AnalysisFailed e], inr (map (set_analysis ai_unavailable) zombies)).
Proof.
  unfold failure_line_prints. intros Hprint.
  by rewrite on_total_failure_run, Hprint.
Qed.

Lemma on_total_failure_requests (aws : cloud) (zombies : list zombie)
    (e : exn) :
  requests (fst (on_total_failure aws zombies e)) = [].
Proof.
  rewrite on_total_failure_run.
  by destruct (console_print aws
                 ("AI analysis failed: " +:+ failure_text aws e)).
Qed.

(** The text of line 312 has no bracket. *)
Lemma exhaustion_line_prints (aws : cloud) :
  failure_line_prints aws (PyExc "Exception").
Proof. reflexivity. Qed.

Lemma carries_set_analysis (a : analysis) (z : zombie) :
  carries a z (set_analysis a z).
Proof. by split. Qed.

Lemma all_carry_set_analysis (a : analysis) (zs : list zombie) :
  Forall2 (carries a) zs (map (set_analysis a) zs).
Proof.
  induction zs as [| z zs IH]; constructor; [apply carries_set_analysis | done].
Qed.

(** Whenever the failure line can be printed the analyzer returns: a list of
    the same length, holding the same records in the same order, every one
    of them with an [ai_analysis] of a risk score and a reason. *)
Lemma analyze_with_ai_returns_if_printed (aws : cloud)
    (loads : string -> res pyval) (self : hunter) (z : zombie)
    (zs : list zombie) :
  (forall e, failure_line_prints aws e) ->
  exists out annotated_list,
    analyze_with_ai aws loads self (z :: zs) = (out, inr annotated_list)
    /\ length annotated_list = length (z :: zs)
    /\ map scanned annotated_list = map scanned (z :: zs)
    /\ Forall (fun r => exists risk why,
                 ai_analysis r = Some (Analysis risk why))
              annotated_list.
Proof.
  intros Hprint.
  assert (forall l : list zombie, Forall annotated l ->
            Forall (fun r => exists risk why,
                      ai_analysis r = Some (Analysis risk why)) l) as Hshape.
  { intros l Hl. eapply Forall_impl; [exact Hl |].
    intros r [[risk why] Ha]. eauto. }
  assert (length (map (set_analysis ai_unavailable) (z :: zs))
            = length (z :: zs)
          /\ map scanned (map (set_analysis ai_unavailable) (z :: zs))
             = map scanned (z :: zs)
          /\ Forall annotated (map (set_analysis ai_unavailable) (z :: zs)))
    as (Hlen & Hsc & Hann).
  { split; [by rewrite length_map |].
    split; [by rewrite map_scanned_set_analysis |].
    apply Forall_forall. intros r Hr%list_elem_of_In.
    apply in_map_iff in Hr as (r0 & <- & _). by eexists. }
  rewrite analyze_with_ai_run.
  destruct (bedrock_client aws (bedrock_region self)) as [e | ?].
  - rewrite (on_total_failure_printed aws _ e (Hprint e)).
    eexists _, _. split; [reflexivity |]. auto.
  - destruct (try_models aws loads self (z :: zs)
                (_create_analysis_prompt (z :: zs)) models_to_try)
      as [out [e | merged]] eqn:Hrun.
    + rewrite (on_total_failure_printed aws _ e (Hprint e)).
      eexists _, _. split; [reflexivity |]. auto.
    + apply try_models_result in Hrun as (Hlen' & Hsc' & Hann').
      eexists _, _. split; [reflexivity |]. auto.
Qed.

(** C1 (the code departs from it): the handler of the analyzer prints the
    text of the exception before it annotates the records, and the console
    reads that text as markup.  With the inference region given as [[/x]]
    the client cannot be created, the text of the exception quotes the
    region, the console refuses the closing tag, and the analyzer raises
    [MarkupError] past its boundary: no list is returned and no record is
    annotated. *)
Theorem analyze_with_ai_raises_markup_error :
  bedrock_client misnamed_region_cloud "[/x]"
  = inl (PyExc "InvalidRegionError")
  /\ failure_text misnamed_region_cloud (PyExc "InvalidRegionError")
     = "Provided region_name '[/x]' doesn't match a supported format."
  /\ analyze_with_ai misnamed_region_cloud (table_loads [])
       (Hunter ["us-east-1"] "[/x]") sample_zombies
     = ([], inl MarkupError).
Proof. repeat split. Qed.

Lemma requests_snoc_failed (out : list event) (e : exn) :
  requests (out ++ [AnalysisFailed e]) = requests out.
Proof. rewrite requests_app. apply app_nil_r. Qed.

(** The protocol of the loop.  It goes through the fixed list of four
    identifiers in order and sends one request to each identifier it
    reaches.  A client error with one of the three "unavailable" codes
    passes to the next identifier.  The first reply of another kind decides:
    an answer is merged, any other error is a total failure, and so is
    reaching the end of the list (or failing to create the client).  A total
    failure whose line can be printed annotates every record with Unknown
    and the "unavailable" reason; the line of an exhausted list always
    can. *)
Lemma model_selection_protocol (aws : cloud) (loads : string -> res pyval)
    (self : hunter) (z : zombie) (zs : list zombie) :
  let zombies := z :: zs in
  let reply := request aws loads self (_create_analysis_prompt zombies) in
  let all_unknown (r : res (list zombie)) : Prop :=
    exists rated,
      r = inr rated
      /\ Forall2 (carries
                    (Analysis (PStr "Unknown")
                       (PStr "AI analysis unavailable - check Bedrock model access")))
                 zombies rated in
  models_to_try = ["anthropic.claude-3-haiku-20240307-v1:0";
                   "anthropic.claude-3-5-sonnet-20241022-v2:0";
                   "anthropic.claude-3-sonnet-20240229-v1:0";
                   "anthropic.claude-instant-v1"]
  /\ (forall e, bedrock_client aws (bedrock_region self) = inl e ->
        failure_line_prints aws e ->
        exists r,
          analyze_with_ai aws loads self zombies = ([AnalysisFailed e], r)
          /\ all_unknown r)
  /\ (forall tried,
        bedrock_client aws (bedrock_region self) = inr tt ->
        Forall (fun m => unavailable_reply (reply m)) tried ->
        (models_to_try = tried ->
         exists out r,
           analyze_with_ai aws loads self zombies = (out, r)
           /\ all_unknown r
           /\ requests out = tried)
        /\ (forall m rest,
              models_to_try = tried ++ m :: rest ->
              ~ unavailable_reply (reply m) ->
              (forall e, reply m = inl e -> failure_line_prints aws e ->
                 exists out r,
                   analyze_with_ai aws loads self zombies = (out, r)
                   /\ all_unknown r
                   /\ requests out = tried ++ [m])
              /\ (forall text, reply m = inr text ->
                    exists out,
                      analyze_with_ai aws loads self zombies
                      = (out, snd (_merge_analysis loads zombies text))
                      /\ requests out = tried ++ [m]))).
Proof.
  intros zombies reply all_unknown.
  assert (all_unknown (inr (map (set_analysis ai_unavailable) zombies)))
    as Hall.
  { eexists. split; [reflexivity |]. apply all_carry_set_analysis. }
  split; [reflexivity |]. split.
  - intros e He Hprint. unfold zombies.
    rewrite analyze_with_ai_run, He, (on_total_failure_printed _ _ _ Hprint).
    by eexists.
  - intros tried Hclient Htried. unfold zombies.
    rewrite analyze_with_ai_run, Hclient. fold zombies. split.
    + intros ->.
      destruct (try_models_skip aws loads self zombies _ _ [] Htried)
        as (out & Hrun & Hreq).
      rewrite app_nil_r in Hrun. rewrite Hrun. cbn [fst snd try_models raise].
      rewrite (on_total_failure_printed _ _ _ (exhaustion_line_prints aws)).
      eexists _, _. split; [reflexivity |]. split; [exact Hall |].
      cbn [fst]. by rewrite app_nil_r, requests_snoc_failed.
    + intros m rest -> Hm.
      destruct (try_models_skip aws loads self zombies _ _ (m :: rest) Htried)
        as (out & Hrun & Hreq).
      rewrite Hrun. fold reply in Hm. split.
      * intros e Hreply Hprint.
        destruct (decisive_error_round aws loads self zombies _ m rest e
                    Hreply) as (o & -> & Hreq1).
        { exact Hm. }
        cbn [fst snd].
        rewrite (on_total_failure_printed _ _ _ Hprint). simpl.
        eexists _, _. split; [reflexivity |]. split; [exact Hall |].
        by rewrite requests_snoc_failed, requests_app, Hreq, Hreq1.
      * intros text Hreply.
        destruct (answered_round aws loads self zombies _ m rest text Hreply)
          as (o & -> & Hreq1).
        destruct (merge_analysis_total loads zombies text)
          as (o' & merged & -> & _). simpl.
        eexists. split; [reflexivity |].
        by rewrite requests_app, Hreq, Hreq1.
Qed.

(** C5 (the code departs from it): a failure to create the inference client
    is a total failure, before any request is sent, and every record should
    come back annotated with Unknown and the "unavailable" reason.  With the
    inference region given as [[/x]] the failure line cannot be printed, and
    the analyzer raises instead of returning: no record is annotated. *)
Theorem total_failure_leaves_records_unannotated :
  let run :=
    analyze_with_ai misnamed_region_cloud (table_loads [])
      (Hunter ["us-east-1"] "[/x]") sample_zombies in
  requests (fst run) = []
  /\ snd run = inl MarkupError
  /\ ~ (exists rated,
          snd run = inr rated
          /\ Forall2 (carries
                        (Analysis (PStr "Unknown")
                           (PStr "AI analysis unavailable - check Bedrock model access")))
                     sample_zombies rated).
Proof.
  repeat split. by intros (rated & [=] & _).
Qed.

(** ** Replies without a JSON object *)

Lemma merge_no_json_object (loads : string -> res pyval) (zs : list zombie)
    (text : string) :
  no_json_object loads text ->
  exists e,
    _merge_analysis loads zs (PStr text)
    = ([ParseFailed e], inr (map (set_analysis parse_failed) zs)).
Proof.
  unfold _merge_analysis, parse_entries.
  intros [Hopen | [Hclose | [e He]]].
  - rewrite Hopen. simpl. by eexists.
  - rewrite Hclose. rewrite orb_true_r. by eexists.
  - destruct ((str_find "{" text =? -1) || (str_rfind "}" text + 1 =? 0));
      [by eexists |].
    rewrite He. by eexists.
Qed.

(** C6: when the model that answers replies with a text holding no JSON
    object that can be parsed (the text [not json] is one), the analyzer on a
    list that is not empty returns: the list holds the same records, in
    order, every one of them annotated with Unknown and "Failed to parse AI
    analysis". *)
Theorem unparseable_reply_degrades (aws : cloud) (loads : string -> res pyval)
    (self : hunter) (z : zombie) (zs : list zombie)
    (tried : list string) (m : string) (rest : list string) (text : string) :
  let zombies := z :: zs in
  let reply := request aws loads self (_create_analysis_prompt zombies) in
  bedrock_client aws (bedrock_region self) = inr tt ->
  models_to_try = tried ++ m :: rest ->
  Forall (fun m' => unavailable_reply (reply m')) tried ->
  reply m = inr (PStr text) ->
  text = "not json" \/ no_json_object loads text ->
  exists out rated,
    analyze_with_ai aws loads self zombies = (out, inr rated)
    /\ Forall2 (carries (Analysis (PStr "Unknown")
                           (PStr "Failed to parse AI analysis")))
               zombies rated.
Proof.
  intros zombies reply Hclient Hmodels Htried Hreply Htext.
  assert (no_json_object loads text) as Hno.
  { destruct Htext as [-> | Hno]; [by left | exact Hno]. }
  unfold zombies. rewrite analyze_with_ai_run, Hclient, Hmodels.
  fold zombies.
  destruct (try_models_skip aws loads self zombies _ _ (m :: rest) Htried)
    as (out & -> & _).
  destruct (answered_round aws loads self zombies _ m rest _ Hreply)
    as (o & -> & _).
  destruct (merge_no_json_object loads zombies text Hno) as (e & ->).
  simpl. eexists _, _. split; [reflexivity |].
  apply all_carry_set_analysis.
Qed.

(** *** Sample runs *)

(** A reply whose body itself is refused by [json.loads] never reaches the
    merge: it is a total failure, with the "unavailable" reason. *)
Lemma undecodable_body_is_total_failure (aws : cloud)
    (loads : string -> res pyval) (self : hunter) (z : zombie)
    (zs : list zombie) (tried : list string) (m : string) (rest : list string)
    (body cls : string) :
  let zombies := z :: zs in
  let prompt := _create_analysis_prompt zombies in
  bedrock_client aws (bedrock_region self) = inr tt ->
  models_to_try = tried ++ m :: rest ->
  Forall (fun m' => unavailable_reply (request aws loads self prompt m')) tried ->
  invoke_model aws (bedrock_region self) m prompt = inr body ->
  loads body = inl (PyExc cls) ->
  failure_line_prints aws (PyExc cls) ->
  exists out,
    analyze_with_ai aws loads self zombies
    = (out, inr (map (set_analysis ai_unavailable) zombies)).
Proof.
  intros zombies prompt Hclient Hmodels Htried Hbody Hloads Hprint.
  subst prompt.
  assert (request aws loads self (_create_analysis_prompt zombies) m
          = inl (PyExc cls)) as Hreply.
  { unfold request. by rewrite Hbody; simpl; rewrite Hloads. }
  unfold zombies. rewrite analyze_with_ai_run, Hclient, Hmodels. fold zombies.
  destruct (try_models_skip aws loads self zombies _ _ (m :: rest) Htried)
    as (out & -> & _).
  destruct (decisive_error_round aws loads self zombies _ m rest _ Hreply)
    as (o & -> & _).
  { rewrite Hreply. by intros (code & [=] & _). }
  cbn [fst snd].
  rewrite (on_total_failure_printed _ _ _ Hprint). simpl. by eexists.
Qed.

Lemma unparseable_reply_degrades_witness :
  exists out rated,
    analyze_with_ai (bedrock (inr "reply-1"))
      (table_loads [("reply-1", envelope "not json")])
      (Hunter [] "us-east-1") sample_zombies
    = (out, inr rated)
    /\ Forall2 (carries (Analysis (PStr "Unknown")
                           (PStr "Failed to parse AI analysis")))
               sample_zombies rated.
Proof.
  refine (unparseable_reply_degrades
            (bedrock (inr "reply-1"))
            (table_loads [("reply-1", envelope "not json")])
            (Hunter [] "us-east-1")
            (volume_record "us-east-1" (Volume "vol-1" 100 "gp3" None) 8%float)
            [eip_record "us-east-1"
               (Address "eipalloc-1" "198.51.100.1" None None None)]
            ["anthropic.claude-3-haiku-20240307-v1:0";
             "anthropic.claude-3-5-sonnet-20241022-v2:0"]
            "anthropic.claude-3-sonnet-20240229-v1:0"
            ["anthropic.claude-instant-v1"] "not json"
            eq_refl eq_refl _ eq_refl (or_introl eq_refl)).
  repeat constructor; eexists; (split; [reflexivity | repeat constructor]).
Defined.

(** ** What the merge attaches *)

Lemma merge_entry_in_bounds (zs : list zombie) (entry : pyval) (n : Z)
    (a : analysis) :
  entry_number entry = Some n -> entry_analysis entry = Some a ->
  1 <= n <= Z.of_nat (length zs) ->
  merge_entry zs entry = inr (alter (set_analysis a) (Z.to_nat (n - 1)) zs).
Proof.
  destruct entry as [| | | | | | d]; try discriminate. simpl.
  unfold merge_entry. simpl.
  destruct (dict_get "resource_number" d) as [[| | k | | | |] |];
    try discriminate.
  intros [= ->].
  destruct (dict_get "risk_score" d) as [risk |]; [| discriminate].
  destruct (dict_get "reason" d) as [why |]; [| discriminate].
  intros [= <-] Hn. simpl.
  replace ((0 <=? n - 1) && (n - 1 <? Z.of_nat (length zs))) with true; [done |].
  symmetry. apply andb_true_iff. split; [apply Z.leb_le | apply Z.ltb_lt]; lia.
Qed.

Lemma merge_entry_out_of_bounds (zs : list zombie) (entry : pyval) (n : Z) :
  entry_number entry = Some n -> ~ (1 <= n <= Z.of_nat (length zs)) ->
  merge_entry zs entry = inr zs.
Proof.
  destruct entry as [| | | | | | d]; try discriminate. simpl.
  unfold merge_entry. simpl.
  destruct (dict_get "resource_number" d) as [[| | k | | | |] |];
    try discriminate.
  intros [= ->] Hn. simpl.
  replace ((0 <=? n - 1) && (n - 1 <? Z.of_nat (length zs))) with false; [done |].
  symmetry. apply andb_false_iff.
  destruct (Z.leb_spec 0 (n - 1)); [right; apply Z.ltb_ge; lia | by left].
Qed.

(** With well-formed entries the loop completes, and each record ends with
    the annotation of the last entry that names it. *)
Lemma merge_entries_well_formed (entries : list pyval) : forall zs,
  Forall (well_formed (length zs)) entries ->
  exists zs',
    merge_entries entries zs = (None, zs')
    /\ length zs' = length zs
    /\ forall i, zs' !! i = annotate_with (annotation_for i entries) <$> zs !! i.
Proof.
  induction entries as [| entry entries IH]; intros zs Hwf.
  - exists zs. repeat split. intros i. simpl. by destruct (zs !! i).
  - apply Forall_cons in Hwf as [(n & Hn & Ha) Hwf]. simpl.
    destruct (decide (1 <= n <= Z.of_nat (length zs))) as [Hin | Hout].
    + destruct (Ha Hin) as [a Hentry].
      rewrite (merge_entry_in_bounds zs entry n a Hn Hentry Hin).
      destruct (IH (alter (set_analysis a) (Z.to_nat (n - 1)) zs))
        as (zs' & -> & Hlen & Hlook).
      { by rewrite length_alter. }
      exists zs'. split; [done |]. rewrite length_alter in Hlen.
      split; [done |]. intros i. rewrite Hlook, list_lookup_alter.
      destruct (annotation_for i entries) as [a' |]; simpl.
      * case_decide; [| done]. subst i. by destruct (zs !! _).
      * rewrite Hn, Hentry. case_decide as Hi; case_bool_decide as Hi'.
        -- subst i. by destruct (zs !! _).
        -- destruct Hi'. f_equal. lia.
        -- destruct Hi. injection Hi' as ->. lia.
        -- by destruct (zs !! i).
    + rewrite (merge_entry_out_of_bounds zs entry n Hn Hout).
      destruct (IH zs Hwf) as (zs' & -> & Hlen & Hlook).
      exists zs'. repeat split; [done |]. intros i. rewrite Hlook.
      destruct (annotation_for i entries) as [a' |]; [done |].
      rewrite Hn. case_bool_decide as Hi; [| done].
      injection Hi as ->.
      rewrite (lookup_ge_None_2 zs i) by lia. done.
Qed.

(** The last entry numbered [n] is the one that counts. *)
Lemma annotation_for_last (entries : list pyval) (j : nat) (entry : pyval)
    (n : Z) (a : analysis) :
  entries !! j = Some entry ->
  entry_number entry = Some n -> entry_analysis entry = Some a -> 1 <= n ->
  (forall j' later, (j < j')%nat -> entries !! j' = Some later ->
     entry_number later <> Some n) ->
  annotation_for (Z.to_nat (n - 1)) entries = Some a.
Proof.
  revert j. induction entries as [| e entries IH]; intros j Hj Hn Ha Hpos Hlater.
  - done.
  - simpl. destruct j as [| j]; simpl in Hj.
    + injection Hj as ->.
      assert (annotation_for (Z.to_nat (n - 1)) entries = None) as ->.
      { clear IH. induction entries as [| e entries IH]; [done |]. simpl.
        rewrite IH.
        - rewrite bool_decide_eq_false_2; [done |].
          replace (Z.of_nat (Z.to_nat (n - 1)) + 1) with n by lia.
          apply (Hlater 1%nat e); [lia | done].
        - intros j' later Hj'. destruct j' as [| j']; [lia |].
          intros Hl. apply (Hlater (S (S j')) later); [lia | done]. }
      rewrite bool_decide_eq_true_2; [done |]. rewrite Hn. f_equal. lia.
    + rewrite (IH j Hj Hn Ha Hpos); [done |].
      intros j' later Hj' Hl. apply (Hlater (S j') later); [lia | done].
Qed.

(** A record that no entry names gets no annotation from the loop. *)
Lemma annotation_for_none (entries : list pyval) (i : nat) :
  Forall (fun entry => entry_number entry <> Some (Z.of_nat i + 1)) entries ->
  annotation_for i entries = None.
Proof.
  induction 1 as [| e entries He _ IH]; [done |]. simpl. rewrite IH.
  by rewrite bool_decide_eq_false_2.
Qed.

(** The merge of a reply with well-formed entries, record by record. *)
Lemma merge_by_position (loads : string -> res pyval)
    (zombies : list zombie) (text : string) (entries : list pyval) :
  parse_entries loads (PStr text) = inr entries ->
  Forall (well_formed (length zombies)) entries ->
  exists merged,
    _merge_analysis loads zombies (PStr text) = ([], inr merged)
    /\ length merged = length zombies
    /\ (forall j entry n a,
          entries !! j = Some entry ->
          entry_number entry = Some n -> entry_analysis entry = Some a ->
          1 <= n <= Z.of_nat (length zombies) ->
          (forall j' later, (j < j')%nat -> entries !! j' = Some later ->
             entry_number later <> Some n) ->
          exists z,
            zombies !! Z.to_nat (n - 1) = Some z
            /\ merged !! Z.to_nat (n - 1) = Some (set_analysis a z))
    /\ (forall i z,
          zombies !! i = Some z ->
          Forall (fun entry => entry_number entry <> Some (Z.of_nat i + 1))
                 entries ->
          merged !! i
          = Some match ai_analysis z with
                 | Some _ => z
                 | None =>
                     set_analysis
                       (Analysis (PStr "Unknown")
                          (PStr "Analysis not available for this resource")) z
                 end)
    /\ (forall z1 z2 why1 why2,
          zombies = [z1; z2] ->
          entries = [analysis_entry 1 "Low" why1; analysis_entry 2 "High" why2] ->
          merged = [set_analysis (Analysis (PStr "Low") (PStr why1)) z1;
                    set_analysis (Analysis (PStr "High") (PStr why2)) z2]).
Proof.
  intros Hparse Hwf.
  destruct (merge_entries_well_formed entries zombies Hwf)
    as (zs' & Hloop & Hlen & Hlook).
  exists (map fill_default zs'). unfold _merge_analysis.
  rewrite Hparse, Hloop. split; [reflexivity |].
  split; [by rewrite length_map |]. split; [| split].
  - intros j entry n a Hj Hn Ha Hin Hlast.
    destruct (lookup_lt_is_Some_2 zombies (Z.to_nat (n - 1))) as [z Hz]; [lia |].
    exists z. split; [done |].
    change (map fill_default zs') with (fill_default <$> zs').
    rewrite list_lookup_fmap, Hlook, Hz.
    rewrite (annotation_for_last entries j entry n a) by (done || lia).
    reflexivity.
  - intros i z Hz Hnone.
    change (map fill_default zs') with (fill_default <$> zs').
    rewrite list_lookup_fmap, Hlook, Hz, annotation_for_none by done.
    simpl. unfold fill_default. by destruct (ai_analysis z).
  - intros z1 z2 why1 why2 -> ->. simpl in Hloop.
    by injection Hloop as <-.
Qed.

(** C4: when the reply parses and its entries are well formed, the merge
    completes without an error message and keeps the list as long as it was.
    The record at the position an entry names (a number within bounds,
    counted from 1) is the record that was there, now carrying that entry's
    risk score and reason, a later entry for the same number replacing an
    earlier one; a record that no entry names and that has no annotation yet
    gets Unknown with "Analysis not available for this resource".  For two
    records and the entries "1 is Low" and "2 is High", the first record
    comes out Low and the second High. *)
Theorem merge_attaches_by_position (loads : string -> res pyval)
    (zombies : list zombie) (text : string) (entries : list pyval) :
  parse_entries loads (PStr text) = inr entries ->
  Forall (well_formed (length zombies)) entries ->
  exists merged,
    _merge_analysis loads zombies (PStr text) = ([], inr merged)
    /\ length merged = length zombies
    /\ (forall j entry n risk why,
          entries !! j = Some entry ->
          entry_number entry = Some n ->
          entry_analysis entry = Some (Analysis risk why) ->
          1 <= n <= Z.of_nat (length zombies) ->
          (forall j' later, (j < j')%nat -> entries !! j' = Some later ->
             entry_number later <> Some n) ->
          exists z r,
            zombies !! Z.to_nat (n - 1) = Some z
            /\ merged !! Z.to_nat (n - 1) = Some r
            /\ scanned r = scanned z
            /\ ai_analysis r = Some (Analysis risk why))
    /\ (forall i z,
          zombies !! i = Some z ->
          Forall (fun entry => entry_number entry <> Some (Z.of_nat i + 1))
                 entries ->
          exists r,
            merged !! i = Some r
            /\ scanned r = scanned z
            /\ ai_analysis r
               = match ai_analysis z with
                 | Some a => Some a
                 | None =>
                     Some (Analysis (PStr "Unknown")
                             (PStr "Analysis not available for this resource"))
                 end)
    /\ (forall z1 z2 why1 why2,
          zombies = [z1; z2] ->
          entries = [analysis_entry 1 "Low" why1; analysis_entry 2 "High" why2] ->
          exists r1 r2,
            merged = [r1; r2]
            /\ scanned r1 = scanned z1
            /\ ai_analysis r1 = Some (Analysis (PStr "Low") (PStr why1))
            /\ scanned r2 = scanned z2
            /\ ai_analysis r2 = Some (Analysis (PStr "High") (PStr why2))).
Proof.
  intros Hparse Hwf.
  destruct (merge_by_position loads zombies text entries Hparse Hwf)
    as (merged & Hrun & Hlen & Hpos & Hdef & Hex).
  exists merged. split; [done |]. split; [done |]. split; [| split].
  - intros j entry n risk why Hj Hn Ha Hin Hlast.
    destruct (Hpos j entry n _ Hj Hn Ha Hin Hlast) as (z & Hz & Hm).
    by exists z, (set_analysis (Analysis risk why) z).
  - intros i z Hz Hnone. rewrite (Hdef i z Hz Hnone).
    eexists. split; [reflexivity |].
    by destruct (ai_analysis z) eqn:Ha.
  - intros z1 z2 why1 why2 Hz He. rewrite (Hex z1 z2 why1 why2 Hz He).
    by eexists _, _.
Qed.

Lemma merge_attaches_by_position_witness :
  exists r1 r2,
    _merge_analysis (table_loads [(two_entries_json, two_entries)])
      sample_zombies (PStr ("Here is the analysis: " +:+ two_entries_json))
    = ([], inr [r1; r2])
    /\ resource_id r1 = "vol-1"
    /\ ai_analysis r1 = Some (Analysis (PStr "Low") (PStr "Test volume"))
    /\ resource_id r2 = "eipalloc-1"
    /\ ai_analysis r2 = Some (Analysis (PStr "High") (PStr "No tags")).
Proof.
  destruct (merge_attaches_by_position
              (table_loads [(two_entries_json, two_entries)]) sample_zombies
              ("Here is the analysis: " +:+ two_entries_json)
              [analysis_entry 1 "Low" "Test volume";
               analysis_entry 2 "High" "No tags"] eq_refl)
    as (merged & Hrun & _ & _ & _ & Hexample).
  - repeat constructor.
    + exists 1. split; [reflexivity |]. intros _. by eexists.
    + exists 2. split; [reflexivity |]. intros _. by eexists.
  - destruct (Hexample _ _ _ _ eq_refl eq_refl)
      as (r1 & r2 & -> & Hs1 & Ha1 & Hs2 & Ha2).
    exists r1, r2. split; [exact Hrun |].
    split; [exact (f_equal resource_id Hs1) |]. split; [exact Ha1 |].
    split; [exact (f_equal resource_id Hs2) | exact Ha2].
Defined.

(** ** A merge that fails partway *)

Lemma merge_entries_app (l1 l2 : list pyval) : forall zs,
  merge_entries (l1 ++ l2) zs =
  match merge_entries l1 zs with
  | (None, zs1) => merge_entries l2 zs1
  | raised => raised
  end.
Proof.
  induction l1 as [| entry l1 IH]; intros zs; simpl; [done |].
  by destruct (merge_entry zs entry).
Qed.

(** An entry that names a record but lacks one of the two keys. *)
Lemma merge_entry_missing_key (zs : list zombie) (entry : pyval) (n : Z) :
  entry_number entry = Some n -> entry_analysis entry = None ->
  1 <= n <= Z.of_nat (length zs) ->
  merge_entry zs entry = inl KeyError.
Proof.
  destruct entry as [| | | | | | d]; try discriminate. simpl.
  unfold merge_entry. simpl.
  destruct (dict_get "resource_number" d) as [[| | k | | | |] |];
    try discriminate.
  intros [= ->] Hmissing Hn. simpl.
  replace ((0 <=? n - 1) && (n - 1 <? Z.of_nat (length zs))) with true.
  - destruct (dict_get "risk_score" d) as [risk |]; [| done]. simpl.
    by destruct (dict_get "reason" d).
  - symmetry. apply andb_true_iff.
    split; [apply Z.leb_le | apply Z.ltb_lt]; lia.
Qed.

(** C10: when the loop that applies the parsed entries raises, whatever it
    had already written is overwritten: the merge reports the failure and
    returns every record with Unknown and "Failed to parse AI analysis".  An
    entry that names a record but lacks its risk score or its reason raises
    in this way, after the entries before it have been applied. *)
Theorem failed_merge_overwrites_all (loads : string -> res pyval)
    (zombies : list zombie) (text : string) (entries : list pyval) :
  parse_entries loads (PStr text) = inr entries ->
  let all_failed :=
    map (set_analysis
           (Analysis (PStr "Unknown") (PStr "Failed to parse AI analysis")))
        zombies in
  (forall e partial,
     merge_entries entries zombies = (Some e, partial) ->
     _merge_analysis loads zombies (PStr text)
     = ([ParseFailed e], inr all_failed))
  /\ (forall applied broken rest n,
        entries = applied ++ broken :: rest ->
        Forall (well_formed (length zombies)) applied ->
        entry_number broken = Some n ->
        1 <= n <= Z.of_nat (length zombies) ->
        entry_analysis broken = None ->
        exists partial,
          merge_entries entries zombies = (Some KeyError, partial)
          /\ (forall i,
                partial !! i
                = annotate_with (annotation_for i applied) <$> zombies !! i)
          /\ _merge_analysis loads zombies (PStr text)
             = ([ParseFailed KeyError], inr all_failed)).
Proof.
  intros Hparse all_failed.
  assert (forall e partial,
            merge_entries entries zombies = (Some e, partial) ->
            _merge_analysis loads zombies (PStr text)
            = ([ParseFailed e], inr all_failed)) as Hgeneral.
  { intros e partial Hloop. unfold _merge_analysis.
    rewrite Hparse, Hloop, on_parse_failure_run.
    apply merge_entries_shape in Hloop as [_ Hsc].
    by rewrite (overwrite_forgets parse_failed zombies partial Hsc). }
  split; [exact Hgeneral |].
  intros applied broken rest n -> Happlied Hn Hin Hmissing.
  destruct (merge_entries_well_formed applied zombies Happlied)
    as (partial & Hloop & Hlen & Hlook).
  assert (merge_entries (applied ++ broken :: rest) zombies
          = (Some KeyError, partial)) as Hraise.
  { rewrite merge_entries_app, Hloop. simpl.
    rewrite (merge_entry_missing_key partial broken n); [done.. |].
    by rewrite Hlen. }
  exists partial. split; [exact Hraise |]. split; [exact Hlook |].
  by apply (Hgeneral _ partial).
Qed.

Lemma failed_merge_overwrites_all_witness :
  let broken := PDict [("resource_number", PInt 2); ("risk_score", PStr "High")] in
  let loads :=
    table_loads [("{}", PDict [("analyses",
                                PList [analysis_entry 1 "Low" "Test volume";
                                       broken])])] in
  exists partial,
    merge_entries [analysis_entry 1 "Low" "Test volume"; broken] sample_zombies
    = (Some KeyError, partial)
    /\ ai_analysis <$> partial !! 0%nat
       = Some (Some (Analysis (PStr "Low") (PStr "Test volume")))
    /\ _merge_analysis loads sample_zombies (PStr "{}")
       = ([ParseFailed KeyError],
          inr (map (set_analysis parse_failed) sample_zombies)).
Proof.
  intros broken loads.
  destruct (proj2 (failed_merge_overwrites_all loads sample_zombies "{}"
                     [analysis_entry 1 "Low" "Test volume"; broken] eq_refl)
              [analysis_entry 1 "Low" "Test volume"] broken [] 2 eq_refl)
    as (partial & Hloop & Hlook & Hrun).
  - repeat constructor. exists 1. split; [reflexivity |]. intros _. by eexists.
  - reflexivity.
  - simpl. lia.
  - reflexivity.
  - exists partial. split; [exact Hloop |]. split; [| exact Hrun].
    by rewrite Hlook.
Defined.

(** ** Presenters *)

(** C9: on the empty list the table presenter prints the no-resources
    message and nothing else: no table, no total, no risk summary.  The
    markdown presenter writes a report that consists of the opening summary
    (no resources, a cost of zero) followed by the clean-account message
    only: no risk breakdown, no resource table, no recommendations. *)
Theorem presenters_on_empty_list (aws : cloud) (filename : string) :
  display_table [] = ([NoZombiesFound], inr tt)
  /\ generate_markdown_report aws [] filename
     = ([WriteFile filename [MdSummary (now aws) 0 0%float; MdClean];
         ReportSaved filename],
        inr tt).
Proof. split; reflexivity. Qed.

Lemma count_risk_bucket (low medium high unknown : Z) :
  count_risk (PStr "Low") (risk_counts_of low medium high unknown)
    = inr (risk_counts_of (low + 1) medium high unknown)
  /\ count_risk (PStr "Medium") (risk_counts_of low medium high unknown)
      = inr (risk_counts_of low (medium + 1) high unknown)
  /\ count_risk (PStr "High") (risk_counts_of low medium high unknown)
      = inr (risk_counts_of low medium (high + 1) unknown)
  /\ count_risk (PStr "Unknown") (risk_counts_of low medium high unknown)
      = inr (risk_counts_of low medium high (unknown + 1)).
Proof. repeat split; vm_compute; reflexivity. Qed.

Lemma count_of_bucket (low medium high unknown : Z) :
  count_of "Low" (risk_counts_of low medium high unknown) = inr low
  /\ count_of "Medium" (risk_counts_of low medium high unknown) = inr medium
  /\ count_of "High" (risk_counts_of low medium high unknown) = inr high
  /\ count_of "Unknown" (risk_counts_of low medium high unknown) = inr unknown.
Proof. repeat split; vm_compute; reflexivity. Qed.

Lemma table_step_presentable (z : zombie) total low medium high unknown rows :
  presentable z ->
  exists r,
    table_step (total, risk_counts_of low medium high unknown, rows) z
    = ret ((total + cost_estimate z)%float,
           risk_counts_of (low + bucket_size "Low" [z])
                          (medium + bucket_size "Medium" [z])
                          (high + bucket_size "High" [z])
                          (unknown + bucket_size "Unknown" [z]),
           rows ++ [r]).
Proof.
  intros [(s & Hrisk & Hs) (why & Hwhy)].
  destruct (count_risk_bucket low medium high unknown) as (Hl & Hm & Hh & Hu).
  assert (forall b, bucket_size b [z] = if String.eqb s b then 1 else 0)
    as Hsize.
  { intros b. unfold bucket_size, in_bucket. simpl. rewrite Hrisk.
    by destruct (String.eqb s b). }
  unfold table_step. cbv zeta. rewrite Hrisk, Hwhy, !Hsize.
  repeat (apply elem_of_cons in Hs as [-> | Hs]);
    [| | | | by apply elem_of_nil in Hs].
  - rewrite Hl. simpl. rewrite ?Z.add_0_r. eexists. reflexivity.
  - rewrite Hm. simpl. rewrite ?Z.add_0_r. eexists. reflexivity.
  - rewrite Hh. simpl. rewrite ?Z.add_0_r. eexists. reflexivity.
  - rewrite Hu. simpl. rewrite ?Z.add_0_r. eexists. reflexivity.
Qed.

Lemma table_loop_presentable (zs : list zombie) :
  Forall presentable zs ->
  forall total low medium high unknown rows,
  exists rows',
    for_each table_step zs (total, risk_counts_of low medium high unknown, rows)
    = ret (fold_left (fun t z => (t + cost_estimate z)%float) zs total,
           risk_counts_of (low + bucket_size "Low" zs)
                          (medium + bucket_size "Medium" zs)
                          (high + bucket_size "High" zs)
                          (unknown + bucket_size "Unknown" zs),
           rows ++ rows')
    /\ length rows' = length zs.
Proof.
  induction 1 as [| z zs Hz _ IH]; intros total low medium high unknown rows.
  - exists []. unfold bucket_size. simpl. by rewrite app_nil_r, !Z.add_0_r.
  - destruct (table_step_presentable z total low medium high unknown rows Hz)
      as (r & Hstep).
    cbn [for_each]. rewrite Hstep, bind_ret_l.
    destruct (IH (total + cost_estimate z)%float
                 (low + bucket_size "Low" [z])
                 (medium + bucket_size "Medium" [z])
                 (high + bucket_size "High" [z])
                 (unknown + bucket_size "Unknown" [z]) (rows ++ [r]))
      as (rows' & -> & Hlen).
    exists (r :: rows'). split; [| simpl; by rewrite Hlen].
    rewrite <- app_assoc. simpl.
    assert (forall b n, n + bucket_size b [z] + bucket_size b zs
                        = n + bucket_size b (z :: zs)) as Hsum.
    { intros b n. unfold bucket_size. simpl. destruct (in_bucket b z); simpl; lia. }
    by rewrite !Hsum.
Qed.

(** On records whose risk scores are among the four buckets the table
    presenter completes, and prints the table, the sum of the estimates and
    the four counters. *)
Lemma display_table_presentable (z : zombie) (zs : list zombie) :
  Forall presentable (z :: zs) ->
  exists rows,
    display_table (z :: zs)
    = ([PrintTable rows;
        TotalCost (total_cost_of (z :: zs));
        RiskSummary (bucket_size "Low" (z :: zs))
                    (bucket_size "Medium" (z :: zs))
                    (bucket_size "High" (z :: zs))
                    (bucket_size "Unknown" (z :: zs))],
       inr tt)
    /\ length rows = length (z :: zs).
Proof.
  intros Hall.
  destruct (table_loop_presentable (z :: zs) Hall 0%float 0 0 0 0 [])
    as (rows & Hloop & Hlen).
  exists rows. split; [| exact Hlen].
  unfold display_table.
  change risk_counts0 with (risk_counts_of 0 0 0 0).
  rewrite Hloop, bind_ret_l.
  destruct (count_of_bucket (0 + bucket_size "Low" (z :: zs))
              (0 + bucket_size "Medium" (z :: zs))
              (0 + bucket_size "High" (z :: zs))
              (0 + bucket_size "Unknown" (z :: zs))) as (Hl & Hm & Hh & Hu).
  rewrite !bind_emit. simpl. rewrite Hl, Hm, Hh, Hu. reflexivity.
Qed.

(** C8 (the code departs from it): a record whose risk score is outside the
    four buckets, as the merge stores it when the model answers with such a
    word, makes the table presenter raise [KeyError] at the counter update,
    before any row, total or summary is printed. *)
Theorem display_table_unknown_bucket_raises :
  let zombies := [volume_record "us-east-1" (Volume "vol-1" 100 "gp3" None) 8%float] in
  let rated :=
    [set_analysis (Analysis (PStr "Critical")
                            (PStr "Attached to a production database"))
       (volume_record "us-east-1" (Volume "vol-1" 100 "gp3" None) 8%float)] in
  _merge_analysis (table_loads [("{}", critical_reply)]) zombies (PStr "{}")
  = ([], inr rated)
  /\ display_table rated = ([], inl KeyError).
Proof. split; reflexivity. Qed.

(** * Further properties *)

(** ** Finding the braces *)

Lemma find_from_absent (c : ascii) (s : string) : forall i,
  0 <= i -> (find_from c s i = -1 <-> has_char c s = false).
Proof.
  induction s as [| a s IH]; intros i Hi; simpl; [done |].
  destruct (Ascii.eqb a c); simpl.
  - split; [lia | discriminate].
  - apply IH. lia.
Qed.

Lemma find_from_first (c : ascii) (pre rest : string) : forall i,
  has_char c pre = false ->
  find_from c (pre +:+ String c rest) i = i + Z.of_nat (String.length pre).
Proof.
  induction pre as [| a pre IH]; intros i Hpre; simpl.
  - rewrite Ascii.eqb_refl. lia.
  - simpl in Hpre. apply orb_false_iff in Hpre as [-> Hpre].
    rewrite IH by done. lia.
Qed.

Lemma rfind_from_absent (c : ascii) (s : string) : forall i last,
  has_char c s = false -> rfind_from c s i last = last.
Proof.
  induction s as [| a s IH]; intros i last Hs; simpl; [done |].
  simpl in Hs. apply orb_false_iff in Hs as [-> Hs]. by apply IH.
Qed.

Lemma rfind_from_bounds (c : ascii) (s : string) : forall i last,
  last < i -> rfind_from c s i last = last \/ i <= rfind_from c s i last.
Proof.
  induction s as [| a s IH]; intros i last Hi; simpl; [by left |].
  destruct (Ascii.eqb a c).
  - right. destruct (IH (i + 1) i ltac:(lia)); lia.
  - destruct (IH (i + 1) last ltac:(lia)); lia.
Qed.

Lemma rfind_from_present (c : ascii) (s : string) : forall i last,
  last < i -> has_char c s = true -> i <= rfind_from c s i last.
Proof.
  induction s as [| a s IH]; intros i last Hi; simpl; [discriminate |].
  destruct (Ascii.eqb a c); simpl.
  - intros _. destruct (rfind_from_bounds c s (i + 1) i ltac:(lia)); lia.
  - intros Hs. specialize (IH (i + 1) last ltac:(lia) Hs). lia.
Qed.

Lemma str_rfind_absent (c : ascii) (s : string) :
  str_rfind c s = -1 <-> has_char c s = false.
Proof.
  unfold str_rfind. split.
  - intros Hr. destruct (has_char c s) eqn:Hs; [| done].
    pose proof (rfind_from_present c s 0 (-1) ltac:(lia) Hs). lia.
  - apply rfind_from_absent.
Qed.

Lemma rfind_from_last (c : ascii) (pre post : string) : forall i last,
  has_char c post = false ->
  rfind_from c (pre +:+ String c post) i last
  = i + Z.of_nat (String.length pre).
Proof.
  induction pre as [| a pre IH]; intros i last Hpost; simpl.
  - rewrite Ascii.eqb_refl, rfind_from_absent by done. lia.
  - rewrite IH by done. lia.
Qed.

Lemma substring_prefix (mid post : string) :
  substring 0 (String.length mid) (mid +:+ post) = mid.
Proof.
  induction mid as [| b mid IH]; simpl; [by destruct post |]. by rewrite IH.
Qed.

Lemma substring_middle (pre mid post : string) :
  substring (String.length pre) (String.length mid) (pre +:+ mid +:+ post) = mid.
Proof.
  induction pre as [| a pre IH]; simpl;
    [exact (substring_prefix mid post) | exact IH].
Qed.

Lemma append_cons (x : ascii) (a b : string) :
  String x a +:+ b = String x (a +:+ b).
Proof. reflexivity. Qed.

Lemma append_assoc (a b c : string) : (a +:+ b) +:+ c = a +:+ (b +:+ c).
Proof.
  induction a as [| x a IH]; [done |]. by rewrite !append_cons, IH.
Qed.

Lemma length_append (a b : string) :
  String.length (a +:+ b) = (String.length a + String.length b)%nat.
Proof.
  induction a as [| x a IH]; [done |]. rewrite append_cons. simpl. by rewrite IH.
Qed.

(** The slice between the braces of an object that stands in prose free of
    the respective brace. *)
Lemma braces_slice (pre mid post : string) :
  has_char "{" pre = false -> has_char "}" post = false ->
  let text := pre +:+ "{" +:+ mid +:+ "}" +:+ post in
  str_find "{" text = Z.of_nat (String.length pre)
  /\ str_rfind "}" text = Z.of_nat (String.length pre + 1 + String.length mid)
  /\ slice text (str_find "{" text) (str_rfind "}" text + 1)
     = "{" +:+ mid +:+ "}".
Proof.
  intros Hpre Hpost text.
  assert (str_find "{" text = Z.of_nat (String.length pre)) as Hfind.
  { unfold str_find, text.
    change (pre +:+ "{" +:+ mid +:+ "}" +:+ post)
      with (pre +:+ String "{" (mid +:+ "}" +:+ post)).
    by rewrite find_from_first. }
  assert (str_rfind "}" text
          = Z.of_nat (String.length pre + 1 + String.length mid)) as Hrfind.
  { unfold str_rfind, text.
    change (pre +:+ "{" +:+ mid +:+ "}" +:+ post)
      with (pre +:+ ("{" +:+ mid) +:+ String "}" post).
    rewrite <- append_assoc, rfind_from_last by done.
    rewrite !length_append. simpl. lia. }
  split; [done |]. split; [done |].
  unfold slice. rewrite Hfind, Hrfind, Nat2Z.id.
  replace (Z.to_nat (Z.of_nat (String.length pre + 1 + String.length mid) + 1
                     - Z.of_nat (String.length pre)))
    with (String.length ("{" +:+ mid +:+ "}")).
  - unfold text.
    replace (pre +:+ "{" +:+ mid +:+ "}" +:+ post)
      with (pre +:+ ("{" +:+ mid +:+ "}") +:+ post).
    + apply substring_middle.
    + by rewrite !append_assoc.
  - rewrite !length_append. simpl. lia.
Qed.

(** What the merge parses in such a text. *)
Lemma parse_entries_braces (loads : string -> res pyval)
    (pre mid post : string) :
  has_char "{" pre = false -> has_char "}" post = false ->
  parse_entries loads (PStr (pre +:+ "{" +:+ mid +:+ "}" +:+ post))
  = (let? analysis_data := loads ("{" +:+ mid +:+ "}") in
     let? analyses := py_get analysis_data "analyses" (PList []) in
     py_iter analyses).
Proof.
  intros Hpre Hpost.
  destruct (braces_slice pre mid post Hpre Hpost) as (Hf & Hr & Hs).
  unfold parse_entries. cbv zeta in *. rewrite Hs, Hf, Hr.
  replace (Z.of_nat (String.length pre) =? -1) with false
    by (symmetry; apply Z.eqb_neq; lia).
  replace (Z.of_nat (String.length pre + 1 + String.length mid) + 1 =? 0)
    with false by (symmetry; apply Z.eqb_neq; lia).
  reflexivity.
Qed.

(** X1: prose before and after the JSON object does not matter, as long as
    the prose before has no opening brace and the prose after no closing
    brace: the merge of the whole text is the merge of the object alone. *)
Theorem merge_ignores_surrounding_prose (loads : string -> res pyval)
    (zombies : list zombie) (pre mid post : string) :
  str_find "{" pre = -1 -> str_rfind "}" post = -1 ->
  _merge_analysis loads zombies (PStr (pre +:+ "{" +:+ mid +:+ "}" +:+ post))
  = _merge_analysis loads zombies (PStr ("{" +:+ mid +:+ "}")).
Proof.
  intros Hpre Hpost.
  apply find_from_absent in Hpre; [| done].
  apply str_rfind_absent in Hpost.
  unfold _merge_analysis.
  rewrite (parse_entries_braces loads pre mid post Hpre Hpost).
  change (PStr ("{" +:+ mid +:+ "}"))
    with (PStr ("" +:+ "{" +:+ mid +:+ "}" +:+ "")).
  by rewrite (parse_entries_braces loads "" mid "" eq_refl eq_refl).
Qed.

Lemma merge_ignores_surrounding_prose_witness :
  _merge_analysis (table_loads [(two_entries_json, two_entries)])
    sample_zombies
    (PStr ("Sure, here it is: " +:+ two_entries_json +:+ " Let me know."))
  = _merge_analysis (table_loads [(two_entries_json, two_entries)])
      sample_zombies (PStr two_entries_json).
Proof.
  exact (merge_ignores_surrounding_prose
           (table_loads [(two_entries_json, two_entries)]) sample_zombies
           "Sure, here it is: "
           (substring 1 (String.length two_entries_json - 2) two_entries_json)
           " Let me know." eq_refl eq_refl).
Defined.

(** ** Replies at the edges *)

Lemma parse_entries_object (loads : string -> res pyval) (text : string)
    (data : pyval) :
  parsed_object loads text data ->
  parse_entries loads (PStr text)
  = (let? analyses := py_get data "analyses" (PList []) in py_iter analyses).
Proof.
  intros (Hopen & Hclose & Hloads). unfold parse_entries. cbv zeta.
  apply Z.eqb_neq in Hopen. rewrite Hopen.
  replace (str_rfind "}" text + 1 =? 0) with false
    by (symmetry; apply Z.eqb_neq; lia).
  simpl. by rewrite Hloads.
Qed.

Lemma map_fill_default (zs : list zombie) :
  map fill_default zs = map defaulted zs.
Proof.
  apply map_ext. intros z. unfold fill_default, defaulted.
  by destruct (ai_analysis z).
Qed.

(** Entries numbered outside the list leave it as it is. *)
Lemma merge_entries_out_of_range (entries : list pyval) (zs : list zombie) :
  Forall (fun entry => exists n, entry_number entry = Some n
                                 /\ ~ (1 <= n <= Z.of_nat (length zs))) entries ->
  merge_entries entries zs = (None, zs).
Proof.
  induction 1 as [| entry entries (n & Hn & Hout) _ IH]; simpl; [done |].
  by rewrite (merge_entry_out_of_bounds zs entry n Hn Hout).
Qed.

(** X2: a reply that parses to an object without the ['analyses'] key is
    accepted without an error message: every record that has no annotation
    yet gets Unknown with "Analysis not available for this resource". *)
Theorem reply_without_analyses_defaults (loads : string -> res pyval)
    (zombies : list zombie) (text : string) (d : list (string * pyval)) :
  parsed_object loads text (PDict d) ->
  dict_get "analyses" d = None ->
  _merge_analysis loads zombies (PStr text) = ([], inr (map defaulted zombies)).
Proof.
  intros Hobj Hkey. unfold _merge_analysis.
  rewrite (parse_entries_object loads text _ Hobj). simpl. rewrite Hkey. simpl.
  by rewrite map_fill_default.
Qed.

Lemma reply_without_analyses_defaults_witness :
  _merge_analysis (table_loads [("{}", PDict [])]) sample_zombies
    (PStr "I have nothing to report: {}")
  = ([], inr (map (set_analysis not_available) sample_zombies)).
Proof.
  refine (reply_without_analyses_defaults (table_loads [("{}", PDict [])])
            sample_zombies "I have nothing to report: {}" [] _ eq_refl).
  repeat split; discriminate.
Defined.

(** X3: entries whose number lies outside the list (zero, negative, or beyond
    the last record) are skipped without an error, whether or not they carry
    a risk score and a reason; a negative number does not count from the end.
    When all entries are of this kind, the records come out as from a reply
    without entries. *)
Theorem out_of_range_entries_are_skipped (loads : string -> res pyval)
    (zombies : list zombie) (text : string) (d : list (string * pyval))
    (entries : list pyval) :
  parsed_object loads text (PDict d) ->
  dict_get "analyses" d = Some (PList entries) ->
  Forall (fun entry =>
            exists n, entry_number entry = Some n
                      /\ (n <= 0 \/ Z.of_nat (length zombies) < n)) entries ->
  _merge_analysis loads zombies (PStr text) = ([], inr (map defaulted zombies)).
Proof.
  intros Hobj Hkey Hout. unfold _merge_analysis.
  rewrite (parse_entries_object loads text _ Hobj). simpl. rewrite Hkey. simpl.
  rewrite merge_entries_out_of_range, map_fill_default; [done |].
  eapply Forall_impl; [exact Hout |]. intros entry (n & Hn & Hrange).
  exists n. split; [done | lia].
Qed.

Lemma out_of_range_entries_are_skipped_witness :
  let entries := [analysis_entry 0 "High" "Numbered from zero";
                  PDict [("resource_number", PInt (-1))];
                  analysis_entry 3 "Low" "One too many"] in
  _merge_analysis (table_loads [("{}", PDict [("analyses", PList entries)])])
    sample_zombies (PStr "{}")
  = ([], inr (map (set_analysis not_available) sample_zombies)).
Proof.
  intros entries.
  refine (out_of_range_entries_are_skipped
            (table_loads [("{}", PDict [("analyses", PList entries)])])
            sample_zombies "{}" [("analyses", PList entries)] entries
            _ eq_refl _).
  - repeat split; discriminate.
  - repeat constructor.
    + exists 0. split; [reflexivity | lia].
    + exists (-1). split; [reflexivity | lia].
    + exists 3. split; [reflexivity | simpl; lia].
Defined.

(** X4: when the value under ['analyses'] is [null], a boolean or a number,
    the loop cannot start: the merge reports the failure and every record
    gets Unknown with "Failed to parse AI analysis". *)
Theorem analyses_not_iterable_fails (loads : string -> res pyval)
    (zombies : list zombie) (text : string) (d : list (string * pyval))
    (v : pyval) :
  parsed_object loads text (PDict d) ->
  dict_get "analyses" d = Some v ->
  v = PNone \/ (exists b, v = PBool b) \/ (exists n, v = PInt n)
  \/ (exists f, v = PFloat f) ->
  _merge_analysis loads zombies (PStr text)
  = ([ParseFailed TypeError],
     inr (map (set_analysis
                 (Analysis (PStr "Unknown") (PStr "Failed to parse AI analysis")))
              zombies)).
Proof.
  intros Hobj Hkey Hv. unfold _merge_analysis.
  rewrite (parse_entries_object loads text _ Hobj). simpl. rewrite Hkey. simpl.
  by destruct Hv as [-> | [[b ->] | [[n ->] | [f ->]]]].
Qed.

Lemma analyses_not_iterable_fails_witness :
  _merge_analysis (table_loads [("{}", PDict [("analyses", PNone)])])
    sample_zombies (PStr "{}")
  = ([ParseFailed TypeError],
     inr (map (set_analysis parse_failed) sample_zombies)).
Proof.
  refine (analyses_not_iterable_fails
            (table_loads [("{}", PDict [("analyses", PNone)])])
            sample_zombies "{}" [("analyses", PNone)] PNone _ eq_refl
            (or_introl eq_refl)).
  repeat split; discriminate.
Defined.

(** ** Requests of the analyzer *)

Lemma try_models_requests (aws : cloud) (loads : string -> res pyval)
    (self : hunter) (zombies : list zombie) (prompt : string)
    (models : list string) :
  exists rest,
    models
    = requests (fst (try_models aws loads self zombies prompt models)) ++ rest.
Proof.
  induction models as [| m models (rest & IH)]; [by exists [] |].
  rewrite try_models_round.
  destruct (request aws loads self prompt m) as [[code | cls] | text].
  - destruct (model_unavailable code); simpl.
    + exists rest. by rewrite <- IH.
    + by exists models.
  - by exists models.
  - destruct (merge_analysis_total loads zombies text)
      as (out & merged & -> & _ & _ & _ & Hout).
    exists models. simpl. by rewrite (requests_parse_failed _ Hout).
Qed.

(** X5: whatever the services answer, the requests the analyzer sends go to an
    initial part of the list of identifiers, in its order and one per
    identifier: never more than four, never twice to the same one, and none
    at all for an empty list of resources. *)
Theorem requests_follow_the_list (aws : cloud) (loads : string -> res pyval)
    (self : hunter) (zombies : list zombie) :
  (exists rest,
     models_to_try
     = requests (fst (analyze_with_ai aws loads self zombies)) ++ rest)
  /\ (length (requests (fst (analyze_with_ai aws loads self zombies))) <= 4)%nat
  /\ NoDup (requests (fst (analyze_with_ai aws loads self zombies)))
  /\ requests (fst (analyze_with_ai aws loads self [])) = [].
Proof.
  assert (exists rest,
            models_to_try
            = requests (fst (analyze_with_ai aws loads self zombies)) ++ rest)
    as (rest & Hprefix).
  { destruct zombies as [| z zs]; [by exists models_to_try |].
    rewrite analyze_with_ai_run.
    destruct (bedrock_client aws (bedrock_region self)) as [e | ?];
      [rewrite on_total_failure_requests; by exists models_to_try |].
    destruct (try_models_requests aws loads self (z :: zs)
                (_create_analysis_prompt (z :: zs)) models_to_try)
      as (rest & Hrest).
    destruct (try_models aws loads self (z :: zs)
                (_create_analysis_prompt (z :: zs)) models_to_try)
      as [out [e | merged]]; simpl in *; exists rest; [| done].
    by rewrite requests_app, on_total_failure_requests, app_nil_r. }
  split; [by exists rest |].
  assert (NoDup models_to_try) as Hnodup.
  { apply (bool_decide_unpack (NoDup models_to_try)). by vm_compute. }
  split; [| split; [| reflexivity]].
  - apply (f_equal length) in Hprefix. rewrite length_app in Hprefix.
    simpl in Hprefix. lia.
  - rewrite Hprefix in Hnodup. by apply NoDup_app in Hnodup as [? _].
Qed.

(** ** More on the scanners *)

Lemma for_each_app {A B} (body : B -> A -> M B) (l1 l2 : list A) : forall acc,
  for_each body (l1 ++ l2) acc
  = bind (for_each body l1 acc) (for_each body l2).
Proof.
  induction l1 as [| x l1 IH]; intros acc; simpl.
  - by destruct (for_each body l2 acc).
  - destruct (body acc x) as [o [e | acc']]; simpl; [done |].
    rewrite IH. destruct (for_each body l1 acc') as [o1 [e | acc1]]; simpl;
      [done |].
    destruct (for_each body l2 acc1) as [o2 r]. by rewrite app_assoc.
Qed.

Lemma volume_loop (r : string) (volumes : list aws_volume) (costs : list float) :
  Forall2 (fun v c => _estimate_ebs_cost (Size v) (VolumeType v) = inr c)
          volumes costs ->
  forall acc,
    for_each
      (fun found volume =>
         let! cost :=
           lift (_estimate_ebs_cost (Size volume) (VolumeType volume)) in
         ret (found ++ [volume_record r volume cost]))
      volumes acc
    = ret (acc ++ zip_with (volume_record r) volumes costs).
Proof.
  induction 1 as [| v c volumes costs Hc _ IH]; intros acc; cbn [for_each].
  - simpl. by rewrite app_nil_r.
  - rewrite Hc, bind_lift_inr, bind_ret_l, IH. simpl. by rewrite <- app_assoc.
Qed.

(** X6: when the volume query answers and every estimate can be computed,
    the volume scanner returns one record per listed volume, in the order of
    the answer, with the volume's id, size and estimate and the scanned
    region, and prints nothing. *)
Theorem unattached_volumes_exactly (aws : cloud) (r : string)
    (volumes : list aws_volume) (costs : list float) :
  describe_volumes aws r = inr volumes ->
  Forall2 (fun v c => _estimate_ebs_cost (Size v) (VolumeType v) = inr c)
          volumes costs ->
  exists found,
    find_unattached_volumes aws r = ([], inr found)
    /\ found = zip_with (volume_record r) volumes costs
    /\ length found = length volumes
    /\ forall i v c,
         volumes !! i = Some v -> costs !! i = Some c ->
         exists z,
           found !! i = Some z
           /\ resource_type z = "ebs_volume"
           /\ resource_id z = VolumeId v
           /\ size z = Some (Size v)
           /\ region z = r
           /\ cost_estimate z = c
           /\ ai_analysis z = None.
Proof.
  intros Hq Hcosts. exists (zip_with (volume_record r) volumes costs).
  split; [| split; [done | split]].
  - unfold find_unattached_volumes.
    by rewrite Hq, bind_lift_inr, (volume_loop r volumes costs Hcosts).
  - rewrite length_zip_with. apply Forall2_length in Hcosts. lia.
  - intros i v c Hv Hc. exists (volume_record r v c).
    by rewrite lookup_zip_with, Hv, Hc.
Qed.

Lemma unattached_volumes_exactly_witness :
  find_unattached_volumes healthy_cloud "eu-west-1"
  = ([], inr [volume_record "eu-west-1" (Volume "vol-9" 20 "st1" None)
                0.9%float]).
Proof.
  destruct (unattached_volumes_exactly healthy_cloud "eu-west-1"
              [Volume "vol-9" 20 "st1" None] [0.9%float] eq_refl)
    as (found & -> & -> & _).
  - by repeat constructor.
  - reflexivity.
Defined.

Lemma for_each_silent {A B} (body : B -> A -> M B) (l : list A) :
  (forall acc x, fst (body acc x) = []) ->
  forall acc, fst (for_each body l acc) = [].
Proof.
  intros Hbody. induction l as [| x l IH]; intros acc; simpl; [done |].
  specialize (Hbody acc x). destruct (body acc x) as [o [e | acc']];
    simpl in *; [done |].
  specialize (IH acc'). destruct (for_each body l acc') as [o' r].
  simpl in *. by subst.
Qed.

(** The scanners announce no region. *)
Lemma scanners_announce_nothing (aws : cloud) (r : string) :
  scanned_regions (fst (find_unattached_volumes aws r)) = []
  /\ scanned_regions (fst (find_idle_elastic_ips aws r)) = [].
Proof.
  unfold find_unattached_volumes, find_idle_elastic_ips. split.
  - destruct (describe_volumes aws r) as [[code | cls] | volumes]; [done.. |].
    rewrite bind_lift_inr.
    match goal with |- context [for_each ?b ?l ?a] =>
      assert (fst (for_each b l a) = []) as Hsilent;
      [| destruct (for_each b l a) as [o [[code | cls] | found]] ]
    end.
    { apply for_each_silent. intros acc v.
      by destruct (_estimate_ebs_cost (Size v) (VolumeType v)). }
    all: simpl in Hsilent; by subst o.
  - destruct (describe_addresses aws r) as [[code | cls] | addresses];
      [done.. |].
    by rewrite bind_lift_inr, idle_loop.
Qed.

Lemma scanned_regions_app (o1 o2 : list event) :
  scanned_regions (o1 ++ o2) = scanned_regions o1 ++ scanned_regions o2.
Proof. apply flat_map_app. Qed.

(** The loop of the hunt on regions whose scans return. *)
Lemma hunt_loop_concat (aws : cloud) (V I : string -> list zombie)
    (rs : list string) :
  (forall r, In r rs ->
     snd (find_unattached_volumes aws r) = inr (V r)
     /\ snd (find_idle_elastic_ips aws r) = inr (I r)) ->
  forall acc,
    snd (for_each (scan_region aws) rs acc)
    = inr (acc ++ flat_map (fun r => V r ++ I r) rs)
    /\ scanned_regions (fst (for_each (scan_region aws) rs acc)) = rs.
Proof.
  induction rs as [| r rs IH]; intros Hscan acc; simpl.
  - by rewrite app_nil_r.
  - destruct (Hscan r (or_introl eq_refl)) as [Hv Hi].
    destruct (scanners_announce_nothing aws r) as [Hsv Hsi].
    unfold scan_region at 1 3. rewrite bind_emit.
    destruct (find_unattached_volumes aws r) as [ov rv]. simpl in Hv, Hsv.
    destruct (find_idle_elastic_ips aws r) as [oi ri]. simpl in Hi, Hsi.
    subst rv ri. simpl.
    destruct (IH (fun r' Hr' => Hscan r' (or_intror Hr'))
                ((acc ++ V r) ++ I r)) as [Hres Hreg].
    destruct (for_each (scan_region aws) rs ((acc ++ V r) ++ I r))
      as [o res]. simpl in *. subst res. split.
    + by rewrite <- !app_assoc.
    + rewrite !scanned_regions_app, Hsv, Hsi, app_nil_r, Hreg. done.
Qed.

(** X7: when the scans of the requested regions return, the hunt returns, for
    each region in the order requested, its volumes followed by its idle
    addresses, and announces exactly those regions.  Without a request it
    scans the regions found at construction; an explicit empty request scans
    nothing. *)
Theorem hunt_concatenates_regions (aws : cloud) (self : hunter)
    (V I : string -> list zombie) (rs : list string) :
  (forall r, In r rs ->
     snd (find_unattached_volumes aws r) = inr (V r)
     /\ snd (find_idle_elastic_ips aws r) = inr (I r)) ->
  snd (hunt_zombies aws self (Some rs))
    = inr (flat_map (fun r => V r ++ I r) rs)
  /\ scanned_regions (fst (hunt_zombies aws self (Some rs))) = rs
  /\ hunt_zombies aws self None = hunt_zombies aws self (Some (regions self))
  /\ hunt_zombies aws self (Some []) = ([], inr []).
Proof.
  intros Hscan. unfold hunt_zombies.
  destruct (hunt_loop_concat aws V I rs Hscan []) as [Hres Hreg].
  by rewrite Hres, Hreg.
Qed.

Lemma hunt_concatenates_regions_witness :
  snd (hunt_zombies sample_cloud (Hunter [] "us-east-1")
         (Some ["us-east-1"; "eu-west-1"]))
  = inr [volume_record "us-east-1" (Volume "vol-1" 100 "gp3" None) 8%float;
         eip_record "us-east-1"
           (Address "eipalloc-1" "198.51.100.1" None None None);
         eip_record "eu-west-1"
           (Address "eipalloc-1" "198.51.100.1" None None None)].
Proof.
  refine (proj1 (hunt_concatenates_regions sample_cloud (Hunter [] "us-east-1")
                   (fun r => if String.eqb r "eu-west-1" then []
                             else [volume_record r (Volume "vol-1" 100 "gp3" None)
                                     8%float])
                   (fun r => [eip_record r
                                (Address "eipalloc-1" "198.51.100.1"
                                   None None None)])
                   ["us-east-1"; "eu-west-1"] _)).
  intros r [<- | [<- | []]]; split; reflexivity.
Defined.

Lemma volumes_are_fresh (aws : cloud) (r : string) out volumes :
  find_unattached_volumes aws r = (out, inr volumes) ->
  Forall (fun z => fresh_finding z /\ region z = r) volumes.
Proof.
  unfold find_unattached_volumes. intros Hrun.
  apply try_except_inr_inv in Hrun as [Hrun | (o1 & e & o2 & _ & Hh & _)].
  - apply bind_inr_inv in Hrun as (o1 & response & o2 & _ & Hloop & _).
    revert Hloop. apply for_each_invariant; [| constructor].
    intros acc volume o acc' Hacc Hbody.
    apply bind_inr_inv in Hbody as (? & cost & ? & _ & Hret & _).
    injection Hret as _ <-. apply Forall_app. split; [done |].
    constructor; [| constructor]. split; [| done]. split; [done |].
    left. repeat split. by eexists.
  - destruct e; [| discriminate].
    rewrite bind_emit in Hh. injection Hh as _ <-. constructor.
Qed.

Lemma addresses_are_fresh (aws : cloud) (r : string) out ips :
  find_idle_elastic_ips aws r = (out, inr ips) ->
  Forall (fun z => fresh_finding z /\ region z = r) ips.
Proof.
  unfold find_idle_elastic_ips. intros Hrun.
  apply try_except_inr_inv in Hrun as [Hrun | (o1 & e & o2 & _ & Hh & _)].
  - apply bind_inr_inv in Hrun as (o1 & response & o2 & _ & Hloop & _).
    rewrite idle_loop in Hloop. injection Hloop as _ <-. simpl.
    apply Forall_forall. intros z Hz%list_elem_of_In.
    apply in_map_iff in Hz as (a & <- & _).
    split; [| done]. split; [done |]. right. repeat split. by eexists.
  - destruct e; [| discriminate].
    rewrite bind_emit in Hh. injection Hh as _ <-. constructor.
Qed.

Lemma hunt_findings_fresh (aws : cloud) (self : hunter)
    (rs : option (list string)) out found :
  hunt_zombies aws self rs = (out, inr found) ->
  Forall (fun z =>
            fresh_finding z
            /\ In (region z) (match rs with Some l => l | None => regions self end))
         found.
Proof.
  unfold hunt_zombies.
  generalize (match rs with Some l => l | None => regions self end) as l.
  intros l Hrun.
  assert (forall l' acc o res,
            incl l' l ->
            Forall (fun z => fresh_finding z /\ In (region z) l) acc ->
            for_each (scan_region aws) l' acc = (o, inr res) ->
            Forall (fun z => fresh_finding z /\ In (region z) l) res) as Hloop.
  { induction l' as [| r l' IH]; intros acc o res Hincl Hacc Hfor; simpl in Hfor.
    - by injection Hfor as _ <-.
    - apply bind_inr_inv in Hfor as (o1 & acc' & o2 & Hscan & Hrest & _).
      apply (IH acc' o2 res); [by eapply incl_cons_inv | | done].
      unfold scan_region in Hscan. rewrite bind_emit in Hscan.
      injection Hscan as _ Hscan.
      destruct (find_unattached_volumes aws r) as [ov [e | vs]] eqn:Hv;
        [discriminate |].
      destruct (find_idle_elastic_ips aws r) as [oi [e | ips]] eqn:Hi;
        [discriminate |].
      simpl in Hscan. injection Hscan as <-.
      assert (In r l) as Hr by (apply Hincl; by left).
      apply volumes_are_fresh in Hv. apply addresses_are_fresh in Hi.
      rewrite !Forall_app. repeat split; [done | |].
      + eapply Forall_impl; [exact Hv |]. by intros z [? ->].
      + eapply Forall_impl; [exact Hi |]. by intros z [? ->]. }
  by apply (Hloop l [] out found (incl_refl l)).
Qed.

(** X8: every record the hunt returns is a fresh finding of one of the
    regions it was asked to scan: it carries no risk analysis, names its
    region, and is either a volume with its size or an idle address with its
    public IP and the flat estimate. *)
Theorem hunt_returns_fresh_findings (aws : cloud) (self : hunter)
    (rs : option (list string)) out found :
  hunt_zombies aws self rs = (out, inr found) ->
  Forall (fun z =>
            fresh_finding z
            /\ In (region z) (match rs with Some l => l | None => regions self end))
         found.
Proof. apply hunt_findings_fresh. Qed.

Lemma hunt_returns_fresh_findings_witness :
  Forall (fun z => fresh_finding z /\ In (region z) ["us-east-1"; "eu-west-1"])
    [volume_record "us-east-1" (Volume "vol-1" 100 "gp3" None) 8%float;
     eip_record "us-east-1"
       (Address "eipalloc-1" "198.51.100.1" None None None);
     eip_record "eu-west-1"
       (Address "eipalloc-1" "198.51.100.1" None None None)].
Proof.
  exact (hunt_returns_fresh_findings sample_cloud (Hunter [] "us-east-1")
           (Some ["us-east-1"; "eu-west-1"]) _ _ eq_refl).
Defined.

(** X9: an exception of a query that is not a client error (missing
    credentials, an unreachable endpoint) ends the hunt at that region: the
    hunt raises it, the records of the regions scanned before are not
    returned, and the regions after it are not scanned. *)
Theorem other_exception_aborts_hunt (aws : cloud) (self : hunter)
    (pre : list string) (R : string) (post : list string) (cls : string)
    out found :
  hunt_zombies aws self (Some pre) = (out, inr found) ->
  describe_volumes aws R = inl (PyExc cls)
  \/ ((exists o volumes, find_unattached_volumes aws R = (o, inr volumes))
      /\ describe_addresses aws R = inl (PyExc cls)) ->
  snd (hunt_zombies aws self (Some (pre ++ R :: post))) = inl (PyExc cls)
  /\ scanned_regions (fst (hunt_zombies aws self (Some (pre ++ R :: post))))
     = scanned_regions out ++ [R].
Proof.
  unfold hunt_zombies. intros Hpre Hraise.
  assert (snd (for_each (scan_region aws) (R :: post) found) = inl (PyExc cls)
          /\ scanned_regions (fst (for_each (scan_region aws) (R :: post) found))
             = [R]) as [Hres Hreg].
  { cbn [for_each]. unfold scan_region at 1 3. rewrite bind_emit.
    destruct (scanners_announce_nothing aws R) as [Hsv Hsi].
    destruct Hraise as [Hq | [(o & volumes & Hv) Hq]].
    - assert (find_unattached_volumes aws R = ([], inl (PyExc cls))) as ->.
      { unfold find_unattached_volumes. by rewrite Hq. }
      done.
    - assert (find_idle_elastic_ips aws R = ([], inl (PyExc cls))) as Hi.
      { unfold find_idle_elastic_ips. by rewrite Hq. }
      rewrite Hv in Hsv |- *. rewrite Hi. simpl in *. split; [done |].
      rewrite app_nil_r, Hsv. reflexivity. }
  rewrite for_each_app, Hpre. unfold bind.
  destruct (for_each (scan_region aws) (R :: post) found) as [o r].
  simpl in *. subst r. split; [done |].
  by rewrite scanned_regions_app, Hreg.
Qed.

Lemma other_exception_aborts_hunt_witness :
  let offline :=
    {| describe_volumes := fun r =>
         if String.eqb r "ap-south-1" then inl (PyExc "EndpointConnectionError")
         else describe_volumes sample_cloud r;
       describe_addresses := describe_addresses sample_cloud;
       bedrock_client := bedrock_client sample_cloud;
       invoke_model := invoke_model sample_cloud;
       now := now sample_cloud;
       exn_text := exn_text sample_cloud;
       render_markup := render_markup sample_cloud |} in
  snd (hunt_zombies offline (Hunter [] "us-east-1")
         (Some ["us-east-1"; "ap-south-1"; "eu-west-1"]))
  = inl (PyExc "EndpointConnectionError").
Proof.
  intros offline.
  exact (proj1 (other_exception_aborts_hunt offline (Hunter [] "us-east-1")
                  ["us-east-1"] "ap-south-1" ["eu-west-1"]
                  "EndpointConnectionError" _ _ eq_refl (or_introl eq_refl))).
Defined.

(** ** The tags of a record *)

Lemma dict_get_set_eq {V} (k : string) (v : V) (d : list (string * V)) :
  dict_get k (dict_set k v d) = Some v.
Proof.
  induction d as [| [k' v'] d IH]; simpl.
  - by rewrite String.eqb_refl.
  - destruct (String.eqb k' k) eqn:Hk; simpl.
    + by rewrite String.eqb_refl.
    + by rewrite Hk.
Qed.

Lemma dict_get_set_ne {V} (k k' : string) (v : V) (d : list (string * V)) :
  k <> k' -> dict_get k' (dict_set k v d) = dict_get k' d.
Proof.
  intros Hne. induction d as [| [k0 v0] d IH]; simpl.
  - apply String.eqb_neq in Hne. by rewrite Hne.
  - destruct (String.eqb k0 k) eqn:Hk; simpl.
    + apply String.eqb_eq in Hk as ->.
      apply String.eqb_neq in Hne. by rewrite Hne.
    + by rewrite IH.
Qed.

Lemma dict_set_keys {V} (k : string) (v : V) (d : list (string * V)) :
  map fst (dict_set k v d)
  = if bool_decide (k ∈ map fst d) then map fst d else map fst d ++ [k].
Proof.
  induction d as [| [k' v'] d IH]; simpl; [done |].
  destruct (String.eqb k' k) eqn:Hk; simpl.
  - apply String.eqb_eq in Hk as ->.
    rewrite bool_decide_eq_true_2; [done | by left].
  - rewrite IH. apply String.eqb_neq in Hk.
    case_bool_decide as Hin.
    + rewrite bool_decide_eq_true_2; [done | by right].
    + rewrite bool_decide_eq_false_2; [done |].
      by intros [? | ?]%elem_of_cons.
Qed.

Lemma tags_dict_snoc (l : list aws_tag) (t : aws_tag) :
  tags_dict (l ++ [t]) = dict_set (Key t) (Value t) (tags_dict l).
Proof. unfold tags_dict. by rewrite fold_left_app. Qed.

(** X10: in the tags of a record every key occurs once; a key has the value
    of the last tag of the answer that carries it, and a key that no tag
    carries is absent. *)
Theorem tags_keep_last_value (l : list aws_tag) (k : string) :
  NoDup (map fst (tags_dict l))
  /\ (forall pre v post,
        l = pre ++ Tag k v :: post ->
        Forall (fun t => Key t <> k) post ->
        dict_get k (tags_dict l) = Some v)
  /\ (Forall (fun t => Key t <> k) l -> dict_get k (tags_dict l) = None).
Proof.
  split; [| split].
  - induction l as [| t l IH] using rev_ind; [constructor |].
    rewrite tags_dict_snoc, dict_set_keys.
    case_bool_decide as Hin; [done |].
    apply NoDup_app. repeat split; [done | | apply NoDup_singleton].
    by intros x Hx ->%list_elem_of_singleton.
  - intros pre v post -> Hpost.
    induction post as [| t post IH] using rev_ind.
    + by rewrite tags_dict_snoc, dict_get_set_eq.
    + apply Forall_app in Hpost as [Hpost Ht]. rewrite Forall_singleton in Ht.
      rewrite app_comm_cons, app_assoc, tags_dict_snoc.
      rewrite dict_get_set_ne by done. by apply IH.
  - induction l as [| t l IH] using rev_ind; [done |].
    intros [Hl Ht]%Forall_app. rewrite Forall_singleton in Ht.
    rewrite tags_dict_snoc, dict_get_set_ne by done. by apply IH.
Qed.

(** ** More on the presenters *)

Lemma char_length_append (s1 s2 : string) :
  char_length (s1 +:+ s2) = (char_length s1 + char_length s2)%nat.
Proof.
  induction s1 as [| c s1 IH]; [done |].
  rewrite append_cons. cbn [char_length]. rewrite IH.
  by destruct (is_continuation c).
Qed.

Lemma char_length_prefix (s : string) : forall n,
  (n <= char_length s)%nat -> char_length (char_prefix n s) = n.
Proof.
  induction s as [| c s IH]; intros n; cbn [char_length char_prefix].
  - lia.
  - destruct (is_continuation c) eqn:Hc.
    + intros Hn. cbn [char_length]. rewrite Hc. by apply IH.
    + destruct n as [| n]; [done |]. intros Hn.
      cbn [char_length]. rewrite Hc, IH; lia.
Qed.

(** The characters are counted, not the bytes: 57 characters, one of them a
    dash of three bytes, are shown as they are. *)
Lemma display_reason_counts_characters :
  let why :=
    "Tagged for the payments team " +:+ String "226" (String "128" (String "148" ""))
    +:+ " still referenced by backup" in
  String.length why = 59%nat
  /\ char_length why = 57%nat
  /\ display_reason (PStr why) = inr why.
Proof. by vm_compute. Qed.

(** X11: a reason that is a string is shown in at most 57 characters: as it
    is when it has no more than 57, and otherwise as its first 54 characters
    followed by three dots. *)
Theorem shown_reason_fits (s : string) :
  exists shown,
    display_reason (PStr s) = inr shown
    /\ (char_length shown <= 57)%nat
    /\ ((char_length s <= 57)%nat -> shown = s)
    /\ ((57 < char_length s)%nat ->
        shown = char_prefix 54 s +:+ "..."
        /\ char_length shown = 57%nat).
Proof.
  unfold display_reason.
  destruct (Z.ltb_spec 57 (Z.of_nat (char_length s))) as [Hlong | Hshort].
  - exists (char_prefix 54 s +:+ "..."). split; [done |].
    assert (char_length (char_prefix 54 s +:+ "...") = 57%nat) as Hlen.
    { rewrite char_length_append, char_length_prefix by lia. done. }
    repeat split; lia || done.
  - exists s. repeat split; lia || done.
Qed.

(** One iteration of the table loop, step by step. *)
Lemma table_step_unfold (z : zombie) total counts rows :
  table_step (total, counts, rows) z =
  match count_risk (risk_of z) counts with
  | inl e => ([], inl e)
  | inr counts' =>
      match styled risk_colors "dim" (risk_of z) with
      | inl e => ([], inl e)
      | inr risk_text =>
          match display_reason (reason_of z) with
          | inl e => ([], inl e)
          | inr why =>
              ret ((total + cost_estimate z)%float, counts',
                   rows ++ [Row (title (replace_char "_" " " (resource_type z)))
                                (resource_id z) (region z) (cost_estimate z)
                                (fst risk_text) (snd risk_text) why])
          end
      end
  end.
Proof.
  unfold table_step.
  destruct (count_risk (risk_of z) counts) as [e | counts']; [done |].
  rewrite bind_lift_inr.
  destruct (styled risk_colors "dim" (risk_of z)) as [e | risk_text]; [done |].
  rewrite bind_lift_inr.
  by destruct (display_reason (reason_of z)) as [e | why].
Qed.

Lemma risk_counts_lookup_other (s : string) (low medium high unknown : Z) :
  s ∉ ["Low"; "Medium"; "High"; "Unknown"] ->
  risk_counts_of low medium high unknown !! s = None.
Proof.
  intros Hs. unfold risk_counts_of.
  rewrite !not_elem_of_cons in Hs. destruct Hs as (? & ? & ? & ? & _).
  by rewrite !lookup_insert_ne, lookup_empty.
Qed.

Lemma bucket_size_one (b s : string) (z : zombie) :
  risk_of z = PStr s ->
  bucket_size b [z] = if String.eqb s b then 1 else 0.
Proof.
  intros Hrisk. unfold bucket_size, in_bucket. simpl. rewrite Hrisk.
  by destruct (String.eqb s b).
Qed.

Lemma bucket_size_cons (b : string) (z : zombie) (zs : list zombie) :
  bucket_size b (z :: zs) = bucket_size b [z] + bucket_size b zs.
Proof.
  unfold bucket_size. simpl. destruct (in_bucket b z); simpl; lia.
Qed.

(** An iteration either adds the row of a presentable record or raises
    without output. *)
Lemma table_step_cases (z : zombie) total low medium high unknown rows :
  (presentable z
   /\ exists r,
        table_step (total, risk_counts_of low medium high unknown, rows) z
        = ret ((total + cost_estimate z)%float,
               risk_counts_of (low + bucket_size "Low" [z])
                              (medium + bucket_size "Medium" [z])
                              (high + bucket_size "High" [z])
                              (unknown + bucket_size "Unknown" [z]),
               rows ++ [r])
        /\ row_shows z r)
  \/ (~ presentable z
      /\ exists e,
           table_step (total, risk_counts_of low medium high unknown, rows) z
           = ([], inl e)).
Proof.
  rewrite table_step_unfold.
  destruct (risk_of z) as [| b | n | f | s | l | d] eqn:Hrisk;
    try (right; split; [intros [(s' & Hs' & _) _]; congruence | by eexists]).
  destruct (decide (s ∈ ["Low"; "Medium"; "High"; "Unknown"])) as [Hs | Hs].
  - destruct (count_risk_bucket low medium high unknown) as (Hl & Hm & Hh & Hu).
    rewrite !(bucket_size_one _ s z Hrisk).
    assert (count_risk (PStr s) (risk_counts_of low medium high unknown)
            = inr (risk_counts_of
                     (low + if String.eqb s "Low" then 1 else 0)
                     (medium + if String.eqb s "Medium" then 1 else 0)
                     (high + if String.eqb s "High" then 1 else 0)
                     (unknown + if String.eqb s "Unknown" then 1 else 0)))
      as ->.
    { repeat (apply elem_of_cons in Hs as [-> | Hs]);
        [| | | | by apply elem_of_nil in Hs];
        simpl; rewrite ?Z.add_0_r; assumption. }
    simpl.
    destruct (reason_of z) as [| b | n | f | why | l | d] eqn:Hwhy;
      try (right; split; [intros [_ (w & Hw)]; congruence | simpl; by eexists]).
    + left. split; [split; by eexists |]. simpl. eexists. split; [done |].
      unfold row_shows. simpl. rewrite Hwhy. by repeat split.
    + right. split; [intros [_ (w & Hw)]; congruence |]. simpl.
      destruct (57 <? Z.of_nat (length l)); by eexists.
    + right. split; [intros [_ (w & Hw)]; congruence |]. simpl.
      destruct (57 <? Z.of_nat (length d)); by eexists.
  - right. split.
    + intros [(s' & Heq & Hs') _]. rewrite Hrisk in Heq.
      injection Heq as <-. by apply Hs.
    + unfold count_risk. rewrite risk_counts_lookup_other by done. by eexists.
Qed.

Lemma table_loop_cases (zs : list zombie) :
  forall total low medium high unknown rows,
    (Forall presentable zs
     /\ exists rows',
          for_each table_step zs
            (total, risk_counts_of low medium high unknown, rows)
          = ret (fold_left (fun t z => (t + cost_estimate z)%float) zs total,
                 risk_counts_of (low + bucket_size "Low" zs)
                                (medium + bucket_size "Medium" zs)
                                (high + bucket_size "High" zs)
                                (unknown + bucket_size "Unknown" zs),
                 rows ++ rows')
          /\ Forall2 row_shows zs rows')
    \/ (~ Forall presentable zs
        /\ exists e,
             for_each table_step zs
               (total, risk_counts_of low medium high unknown, rows)
             = ([], inl e)).
Proof.
  induction zs as [| z zs IH]; intros total low medium high unknown rows.
  - left. split; [constructor |]. exists []. unfold bucket_size. simpl.
    rewrite app_nil_r, !Z.add_0_r. by split; [| constructor].
  - cbn [for_each].
    destruct (table_step_cases z total low medium high unknown rows)
      as [[Hz (r & -> & Hr)] | [Hz (e & ->)]].
    + rewrite bind_ret_l.
      destruct (IH (total + cost_estimate z)%float
                   (low + bucket_size "Low" [z])
                   (medium + bucket_size "Medium" [z])
                   (high + bucket_size "High" [z])
                   (unknown + bucket_size "Unknown" [z]) (rows ++ [r]))
        as [[Hzs (rows' & -> & Hrows)] | [Hzs (e & ->)]].
      * left. split; [by constructor |]. exists (r :: rows').
        split; [| by constructor].
        rewrite <- app_assoc, !(bucket_size_cons _ z zs), !Z.add_assoc. done.
      * right. split; [| by eexists].
        intros Hall. apply Hzs. by apply Forall_cons in Hall as [_ ?].
    + right. split; [| by eexists].
      intros Hall. apply Hz. by apply Forall_cons in Hall as [? _].
Qed.

Lemma bucket_sizes_partition (zs : list zombie) :
  Forall countable zs ->
  bucket_size "Low" zs + bucket_size "Medium" zs + bucket_size "High" zs
  + bucket_size "Unknown" zs = Z.of_nat (length zs).
Proof.
  induction 1 as [| z zs (s & Hrisk & Hs) _ IH]; [done |].
  rewrite !(bucket_size_cons _ z zs), !(bucket_size_one _ s z Hrisk).
  simpl length. rewrite Nat2Z.inj_succ.
  repeat (apply elem_of_cons in Hs as [-> | Hs]);
    [| | | | by apply elem_of_nil in Hs]; simpl; lia.
Qed.

Lemma presentable_countable (z : zombie) : presentable z -> countable z.
Proof. by intros [? _]. Qed.

(** X12: on records whose cells have no bracket, which the console prints as
    they are, the table presenter prints all or nothing.  When every record
    is presentable it prints one row per record, in order, each showing its
    record, then the sum of the estimates and the four counters, which add up
    to the number of records; when some record is not (a risk score outside
    the four buckets, or a reason that is not a string), it raises before
    anything is printed. *)
Theorem table_is_all_or_nothing (z : zombie) (zs : list zombie) :
  Forall markup_free (z :: zs) ->
  (Forall presentable (z :: zs)
   /\ exists rows low medium high unknown,
        display_table (z :: zs)
        = ([PrintTable rows; TotalCost (total_cost_of (z :: zs));
            RiskSummary low medium high unknown], inr tt)
        /\ Forall2 row_shows (z :: zs) rows
        /\ low = bucket_size "Low" (z :: zs)
        /\ medium = bucket_size "Medium" (z :: zs)
        /\ high = bucket_size "High" (z :: zs)
        /\ unknown = bucket_size "Unknown" (z :: zs)
        /\ low + medium + high + unknown = Z.of_nat (length (z :: zs)))
  \/ (~ Forall presentable (z :: zs)
      /\ exists e, display_table (z :: zs) = ([], inl e)).
Proof.
  intros _.
  unfold display_table. change risk_counts0 with (risk_counts_of 0 0 0 0).
  destruct (table_loop_cases (z :: zs) 0%float 0 0 0 0 [])
    as [[Hall (rows & -> & Hrows)] | [Hall (e & ->)]].
  - left. split; [done |]. rewrite bind_ret_l.
    destruct (count_of_bucket (0 + bucket_size "Low" (z :: zs))
                (0 + bucket_size "Medium" (z :: zs))
                (0 + bucket_size "High" (z :: zs))
                (0 + bucket_size "Unknown" (z :: zs))) as (Hl & Hm & Hh & Hu).
    rewrite !bind_emit. simpl fst. simpl snd.
    rewrite Hl, Hm, Hh, Hu. simpl.
    eexists rows, _, _, _, _. split; [reflexivity |].
    repeat split; [done |].
    apply bucket_sizes_partition.
    eapply Forall_impl; [exact Hall | apply presentable_countable].
  - right. by split; [| eexists].
Qed.

Lemma table_is_all_or_nothing_witness :
  exists rows,
    display_table (map (set_analysis parse_failed) sample_zombies)
    = ([PrintTable rows;
        TotalCost (total_cost_of sample_zombies);
        RiskSummary 0 0 0 2], inr tt).
Proof.
  destruct (table_is_all_or_nothing
              (set_analysis parse_failed
                 (volume_record "us-east-1" (Volume "vol-1" 100 "gp3" None)
                    8%float))
              [set_analysis parse_failed
                 (eip_record "us-east-1"
                    (Address "eipalloc-1" "198.51.100.1" None None None))])
    as [[_ (rows & low & medium & high & unknown & Hrun
            & _ & -> & -> & -> & -> & _)]
       | [Hnot _]].
  - by repeat constructor.
  - exists rows. exact Hrun.
  - destruct Hnot.
    repeat constructor; eexists; (reflexivity || (split; [reflexivity |]));
      set_solver.
Defined.

(** The table of presentable records. *)
Lemma display_table_rows (z : zombie) (zs : list zombie) :
  Forall presentable (z :: zs) ->
  exists rows,
    display_table (z :: zs)
    = ([PrintTable rows; TotalCost (total_cost_of (z :: zs));
        RiskSummary (bucket_size "Low" (z :: zs))
                    (bucket_size "Medium" (z :: zs))
                    (bucket_size "High" (z :: zs))
                    (bucket_size "Unknown" (z :: zs))], inr tt)
    /\ Forall2 row_shows (z :: zs) rows.
Proof.
  intros Hall. unfold display_table.
  change risk_counts0 with (risk_counts_of 0 0 0 0).
  destruct (table_loop_cases (z :: zs) 0%float 0 0 0 0 [])
    as [[_ (rows & -> & Hrows)] | [Hnot _]]; [| done].
  rewrite bind_ret_l.
  destruct (count_of_bucket (0 + bucket_size "Low" (z :: zs))
              (0 + bucket_size "Medium" (z :: zs))
              (0 + bucket_size "High" (z :: zs))
              (0 + bucket_size "Unknown" (z :: zs))) as (Hl & Hm & Hh & Hu).
  rewrite !bind_emit. simpl fst. simpl snd.
  rewrite Hl, Hm, Hh, Hu. simpl. by exists rows.
Qed.

Lemma unrated_risk_and_reason (z : zombie) :
  unrated z ->
  risk_of z = PStr "Unknown"
  /\ exists why, reason_of z = PStr why /\ display_reason (PStr why) = inr why.
Proof.
  unfold unrated, risk_of, reason_of.
  intros [-> | [-> | [-> | ->]]]; (split; [done |]); by eexists.
Qed.

Lemma bucket_size_unknown (zs : list zombie) :
  Forall (fun z => risk_of z = PStr "Unknown") zs ->
  bucket_size "Low" zs = 0 /\ bucket_size "Medium" zs = 0
  /\ bucket_size "High" zs = 0
  /\ bucket_size "Unknown" zs = Z.of_nat (length zs).
Proof.
  induction 1 as [| z zs Hz _ (Hl & Hm & Hh & Hu)]; [done |].
  rewrite !(bucket_size_cons _ z zs), !(bucket_size_one _ "Unknown" z Hz).
  rewrite Hl, Hm, Hh, Hu. simpl length. rewrite Nat2Z.inj_succ.
  simpl. repeat split; lia.
Qed.

Lemma display_table_unrated (z : zombie) (zs : list zombie) :
  Forall unrated (z :: zs) ->
  exists rows,
    display_table (z :: zs)
    = ([PrintTable rows; TotalCost (total_cost_of (z :: zs));
        RiskSummary 0 0 0 (Z.of_nat (length (z :: zs)))], inr tt)
    /\ Forall2 (fun r shown =>
                  row_risk shown = "Unknown"
                  /\ row_risk_style shown = "dim"
                  /\ reason_of r = PStr (row_reason shown))
               (z :: zs) rows.
Proof.
  intros Hall.
  assert (Forall presentable (z :: zs)) as Hpres.
  { eapply Forall_impl; [exact Hall |]. intros r Hr.
    destruct (unrated_risk_and_reason r Hr) as (Hrisk & why & Hwhy & _).
    split; [exists "Unknown"; split; [done | set_solver] | by exists why]. }
  destruct (display_table_rows z zs Hpres) as (rows & Hrun & Hrows).
  destruct (bucket_size_unknown (z :: zs)) as (Hl & Hm & Hh & Hu).
  { eapply Forall_impl; [exact Hall |]. intros r Hr.
    by destruct (unrated_risk_and_reason r Hr). }
  rewrite Hl, Hm, Hh, Hu in Hrun. exists rows. split; [exact Hrun |].
  clear Hrun Hpres Hl Hm Hh Hu.
  induction Hrows as [| r shown l rows' Hshown _ IH]; [constructor |].
  apply Forall_cons in Hall as [Hr Hall]. constructor; [| by apply IH].
  destruct (unrated_risk_and_reason r Hr) as (Hrisk & why & Hwhy & Hfull).
  destruct Hshown as (_ & _ & _ & _ & Hrisk' & Hstyle & Hreason).
  rewrite Hrisk in Hrisk'. injection Hrisk' as Hshown.
  rewrite Hwhy, Hfull in Hreason. injection Hreason as <-.
  rewrite <- Hshown in Hstyle. by rewrite Hstyle.
Qed.

(** X13: records without a rating of the model (analysis not requested, or
    replaced by one of the analyzer's three placeholders) never make the
    table presenter fail: it prints one row per record with risk Unknown and
    the full text of the reason (no placeholder is long enough to be cut),
    the sum of the estimates, and the counters 0, 0, 0 and the number of
    records. *)
Theorem unrated_records_show_as_unknown (z : zombie) (zs : list zombie) :
  Forall unrated (z :: zs) ->
  exists rows,
    display_table (z :: zs)
    = ([PrintTable rows; TotalCost (total_cost_of (z :: zs));
        RiskSummary 0 0 0 (Z.of_nat (length (z :: zs)))], inr tt)
    /\ Forall2 (fun r shown =>
                  row_risk shown = "Unknown"
                  /\ row_risk_style shown = "dim"
                  /\ reason_of r = PStr (row_reason shown))
               (z :: zs) rows.
Proof. apply display_table_unrated. Qed.

Lemma unrated_records_show_as_unknown_witness :
  exists rows,
    display_table sample_zombies
    = ([PrintTable rows; TotalCost 11.65%float; RiskSummary 0 0 0 2], inr tt).
Proof.
  destruct (unrated_records_show_as_unknown
              (volume_record "us-east-1" (Volume "vol-1" 100 "gp3" None) 8%float)
              [eip_record "us-east-1"
                 (Address "eipalloc-1" "198.51.100.1" None None None)])
    as (rows & Hrun & _).
  - repeat constructor.
  - by exists rows.
Defined.

(** The counter update on a risk score, by whether it names a bucket. *)
Lemma count_risk_cases (z : zombie) (low medium high unknown : Z) :
  (countable z
   /\ count_risk (risk_of z) (risk_counts_of low medium high unknown)
      = inr (risk_counts_of (low + bucket_size "Low" [z])
                            (medium + bucket_size "Medium" [z])
                            (high + bucket_size "High" [z])
                            (unknown + bucket_size "Unknown" [z])))
  \/ (~ countable z
      /\ exists e,
           count_risk (risk_of z) (risk_counts_of low medium high unknown)
           = inl e).
Proof.
  destruct (risk_of z) as [| b | n | f | s | l | d] eqn:Hrisk;
    try (right; split; [intros (s' & Hs' & _); congruence | by eexists]).
  destruct (decide (s ∈ ["Low"; "Medium"; "High"; "Unknown"])) as [Hs | Hs].
  - left. split; [by exists s |].
    destruct (count_risk_bucket low medium high unknown) as (Hl & Hm & Hh & Hu).
    rewrite !(bucket_size_one _ s z Hrisk).
    repeat (apply elem_of_cons in Hs as [-> | Hs]);
      [| | | | by apply elem_of_nil in Hs];
      simpl; rewrite ?Z.add_0_r; assumption.
  - right. split.
    + intros (s' & Heq & Hs'). rewrite Hrisk in Heq.
      injection Heq as <-. by apply Hs.
    + unfold count_risk. rewrite risk_counts_lookup_other by done. by eexists.
Qed.

Lemma count_risks_cases (zs : list zombie) : forall low medium high unknown,
  (Forall countable zs
   /\ count_risks zs (risk_counts_of low medium high unknown)
      = inr (risk_counts_of (low + bucket_size "Low" zs)
                            (medium + bucket_size "Medium" zs)
                            (high + bucket_size "High" zs)
                            (unknown + bucket_size "Unknown" zs)))
  \/ (~ Forall countable zs
      /\ exists e,
           count_risks zs (risk_counts_of low medium high unknown) = inl e).
Proof.
  induction zs as [| z zs IH]; intros low medium high unknown.
  - left. split; [constructor |]. unfold bucket_size. simpl.
    by rewrite !Z.add_0_r.
  - cbn [count_risks].
    destruct (count_risk_cases z low medium high unknown)
      as [[Hz ->] | [Hz (e & ->)]]; simpl.
    + destruct (IH (low + bucket_size "Low" [z])
                   (medium + bucket_size "Medium" [z])
                   (high + bucket_size "High" [z])
                   (unknown + bucket_size "Unknown" [z]))
        as [[Hzs ->] | [Hzs (e & ->)]].
      * left. split; [by constructor |].
        by rewrite !(bucket_size_cons _ z zs), !Z.add_assoc.
      * right. split; [| by eexists].
        intros Hall. apply Hzs. by apply Forall_cons in Hall as [_ ?].
    + right. split; [| by eexists].
      intros Hall. apply Hz. by apply Forall_cons in Hall as [? _].
Qed.

Lemma md_rows_countable (zs : list zombie) :
  Forall countable zs ->
  exists rows,
    md_rows zs = inr rows
    /\ Forall2 (fun z line =>
                  exists emoji,
                    line = MdTableRow
                             (title (replace_char "_" " " (resource_type z)))
                             (resource_id z) (region z) (cost_estimate z)
                             emoji (risk_of z) (reason_of z))
               zs rows.
Proof.
  induction 1 as [| z zs (s & Hrisk & _) _ (rows & Hrows & Hall)].
  - exists []. by split; [| constructor].
  - cbn [md_rows]. unfold md_row. rewrite Hrisk. simpl. rewrite Hrows. simpl.
    eexists. split; [reflexivity |]. constructor; [| done].
    rewrite <- Hrisk. by eexists.
Qed.

(** X14: the markdown presenter writes all or nothing.  When every record's
    risk score is one of the four buckets it writes one file holding the
    summary, the four counters, the table head, one line per record in order
    and the recommendations with the same counters, whatever the reasons
    are; when some risk score is not, it raises before the file is
    written. *)
Theorem report_is_all_or_nothing (aws : cloud) (z : zombie)
    (zs : list zombie) (filename : string) :
  (Forall countable (z :: zs)
   /\ exists lines,
        generate_markdown_report aws (z :: zs) filename
        = ([WriteFile filename
              (MdSummary (now aws) (length (z :: zs)) (total_cost_of (z :: zs))
               :: MdRiskBreakdown (bucket_size "Low" (z :: zs))
                                  (bucket_size "Medium" (z :: zs))
                                  (bucket_size "High" (z :: zs))
                                  (bucket_size "Unknown" (z :: zs))
               :: MdTableHead
               :: lines
               ++ [MdRecommendations (bucket_size "Low" (z :: zs))
                                     (bucket_size "Medium" (z :: zs))
                                     (bucket_size "High" (z :: zs))
                                     (bucket_size "Unknown" (z :: zs))]);
            ReportSaved filename], inr tt)
        /\ Forall2 (fun r line =>
                      exists emoji,
                        line = MdTableRow
                                 (title (replace_char "_" " " (resource_type r)))
                                 (resource_id r) (region r) (cost_estimate r)
                                 emoji (risk_of r) (reason_of r))
                   (z :: zs) lines)
  \/ (~ Forall countable (z :: zs)
      /\ exists e,
           generate_markdown_report aws (z :: zs) filename = ([], inl e)).
Proof.
  unfold generate_markdown_report.
  change risk_counts0 with (risk_counts_of 0 0 0 0).
  destruct (count_risks_cases (z :: zs) 0 0 0 0) as [[Hall ->] | [Hall (e & ->)]].
  - left. split; [done |].
    destruct (md_rows_countable (z :: zs) Hall) as (lines & Hlines & Hshow).
    destruct (count_of_bucket (0 + bucket_size "Low" (z :: zs))
                (0 + bucket_size "Medium" (z :: zs))
                (0 + bucket_size "High" (z :: zs))
                (0 + bucket_size "Unknown" (z :: zs))) as (Hl & Hm & Hh & Hu).
    rewrite bind_lift_inr, Hl, bind_lift_inr, Hm, bind_lift_inr, Hh,
      bind_lift_inr, Hu, bind_lift_inr, Hlines, bind_lift_inr.
    exists lines. split; [| done]. reflexivity.
  - right. split; [done |]. by exists e.
Qed.

(** ** The command *)

Lemma cli_bind_emit {B} (ev : cli_event) (k : unit -> CLI B) :
  cli_bind (cli_emit ev) k = (ev :: fst (k tt), snd (k tt)).
Proof. unfold cli_bind, cli_emit. by destruct (k tt). Qed.

Lemma cli_bind_call_inr {A B} (out : list event) (a : A) (k : A -> CLI B) :
  cli_bind (call (out, inr a)) k = (map Run out ++ fst (k a), snd (k a)).
Proof. unfold cli_bind, call. simpl. by destruct (k a). Qed.

Lemma cli_bind_call_inl {A B} (out : list event) (e : exn) (k : A -> CLI B) :
  cli_bind (call (out, inl e)) k = (map Run out, inl e).
Proof. reflexivity. Qed.

Lemma cli_bind_ret {A B} (a : A) (k : A -> CLI B) :
  cli_bind (cli_ret a) k = k a.
Proof. unfold cli_bind, cli_ret. by destruct (k a). Qed.

Lemma cli_bind_inr {A B} (out : list cli_event) (a : A) (k : A -> CLI B) :
  cli_bind (out, inr a) k = (out ++ fst (k a), snd (k a)).
Proof. unfold cli_bind. by destruct (k a). Qed.

Lemma new_hunter_run (regs : res (list string)) (br : string) :
  new_hunter regs br
  = (fst (_get_regions regs),
     inr {| regions := snd (_get_regions regs); bedrock_region := br |}).
Proof. unfold new_hunter. by destruct (_get_regions regs). Qed.

(** What the analyzer returns, when it returns. *)
Lemma analyze_with_ai_result (aws : cloud) (loads : string -> res pyval)
    (self : hunter) (zombies : list zombie) out rated :
  analyze_with_ai aws loads self zombies = (out, inr rated) ->
  length rated = length zombies /\ map scanned rated = map scanned zombies.
Proof.
  destruct zombies as [| z zs]; [by intros [= <- <-] |].
  assert (forall e o,
            on_total_failure aws (z :: zs) e = (o, inr rated) ->
            length rated = length (z :: zs)
            /\ map scanned rated = map scanned (z :: zs)) as Hfail.
  { intros e o. rewrite on_total_failure_run.
    destruct (console_print aws
                ("AI analysis failed: " +:+ failure_text aws e));
      [done |].
    intros [= _ Heq]. rewrite <- Heq.
    change (set_analysis ai_unavailable z
            :: map (set_analysis ai_unavailable) zs)
      with (map (set_analysis ai_unavailable) (z :: zs)).
    split; [by rewrite length_map | by rewrite map_scanned_set_analysis]. }
  rewrite analyze_with_ai_run.
  destruct (bedrock_client aws (bedrock_region self)) as [e | ?].
  - apply Hfail.
  - destruct (try_models aws loads self (z :: zs)
                (_create_analysis_prompt (z :: zs)) models_to_try)
      as [o [e | merged]] eqn:Hrun.
    + destruct (on_total_failure aws (z :: zs) e) as [o' r] eqn:Hh.
      cbn [fst snd]. intros [= _ Heq]. rewrite Heq in Hh. by eapply Hfail.
    + intros [= _ Heq]. rewrite Heq in Hrun.
      by apply try_models_result in Hrun as (? & ? & _).
Qed.

(** X15: the diagnostic mode ([--test-bedrock]) runs the analyzer on one
    synthetic volume and nothing else: no region is scanned, nothing is
    presented, and every other option is ignored.  The exit status is 0 when
    the analyzer returns, with nothing printed after its output, and 1 when
    it raises; it returns whenever the console can print the failure line,
    whether or not a model could be reached. *)
Theorem test_mode_only_analyzes (aws : cloud) (loads : string -> res pyval)
    (regs : res (list string)) (regions : list string) (output : option string)
    (pretty analyze : bool) (br : string) (report : option string) :
  let run :=
    analyze_with_ai aws loads (Hunter (snd (_get_regions regs)) br)
      test_zombies in
  (exists tail,
     main aws loads regs regions output pretty analyze br report true
     = (fst (_get_regions regs) ++ TestingBedrock :: map Run (fst run) ++ tail,
        match snd run with inr _ => 0 | inl _ => 1 end)
     /\ match snd run with inr _ => tail = [] | inl _ => True end)
  /\ ((forall e, failure_line_prints aws e) ->
      snd (main aws loads regs regions output pretty analyze br report true)
      = 0).
Proof.
  intros run.
  assert (exists tail,
            main aws loads regs regions output pretty analyze br report true
            = (fst (_get_regions regs)
               ++ TestingBedrock :: map Run (fst run) ++ tail,
               match snd run with inr _ => 0 | inl _ => 1 end)
            /\ match snd run with inr _ => tail = [] | inl _ => True end)
    as Hmain.
  { unfold main, main_body. rewrite new_hunter_run, cli_bind_inr.
    cbv beta iota. rewrite cli_bind_emit. fold run.
    destruct run as [out [e | rated]]; cbn [fst snd].
    - rewrite cli_bind_call_inl. cbn [fst snd].
      destruct e as [code | cls];
        [| destruct (String.eqb cls "NoCredentialsError")];
        eexists; (split; [| done]);
        rewrite <- app_assoc; reflexivity.
    - rewrite cli_bind_call_inr. exists []. by rewrite !app_nil_r. }
  split; [exact Hmain |].
  intros Hprint. destruct Hmain as (tail & -> & _). cbn [snd].
  destruct (analyze_with_ai_returns_if_printed aws loads
              (Hunter (snd (_get_regions regs)) br)
              (hd (Zombie "" "" None None "" [] 0%float None) test_zombies)
              (tl test_zombies) Hprint) as (out & rated & Hrun & _).
  change (analyze_with_ai aws loads (Hunter (snd (_get_regions regs)) br)
            test_zombies = (out, inr rated)) in Hrun.
  unfold run. by rewrite Hrun.
Qed.

(** The command up to the end of the hunt. *)
Lemma main_body_hunt (aws : cloud) (loads : string -> res pyval)
    (regs : res (list string)) (regions : list string) (output : option string)
    (pretty analyze : bool) (br : string) (report : option string) :
  let hunter := Hunter (snd (_get_regions regs)) br in
  main_body aws loads regs regions output pretty analyze br report false
  = match hunt_zombies aws hunter (regions_option regions) with
    | (o, inl e) => (fst (_get_regions regs) ++ StartingHunt :: map Run o, inl e)
    | (o, inr found) =>
        let rest :=
          let* zombies := analysis_step aws loads hunter analyze found in
          output_step aws zombies output pretty report in
        (fst (_get_regions regs) ++ StartingHunt :: map Run o ++ fst rest,
         snd rest)
    end.
Proof.
  intros hunter. unfold main_body.
  rewrite new_hunter_run, cli_bind_inr. cbv beta iota zeta.
  rewrite cli_bind_emit. fold hunter.
  change (match regions with [] => None | _ :: _ => Some regions end)
    with (regions_option regions).
  destruct (hunt_zombies aws hunter (regions_option regions))
    as [o [e | found]].
  - by rewrite cli_bind_call_inl.
  - by rewrite cli_bind_call_inr.
Qed.






Lemma cli_bind_run_inr {B} (out : list cli_event) (k : unit -> CLI B) :
  cli_bind (out, inr tt) k = (out ++ fst (k tt), snd (k tt)).
Proof. apply cli_bind_inr. Qed.

(** The output step of a run that writes no file. *)
Lemma output_step_table (aws : cloud) (zombies : list zombie) (pretty : bool)
    (report : option string) :
  report = None \/ report = Some "" ->
  output_step aws zombies None pretty report
  = (map Run (fst (display_table zombies)), snd (display_table zombies)).
Proof.
  intros Hreport. unfold output_step, call, cli_bind.
  destruct (display_table zombies) as [out [e | []]]; cbn [fst snd];
    [done |].
  destruct Hreport as [-> | ->]; simpl; by rewrite app_nil_r.
Qed.

(** X17: on an account without findings the command sends no request to the
    inference service, even with [--analyze]: in a run that writes no file
    it prints the notice and the no-resources message, and exits with
    status 0. *)
Theorem clean_account_run (aws : cloud) (loads : string -> res pyval)
    (regs : res (list string)) (regions : list string)
    (pretty analyze : bool) (br : string) (report : option string)
    (o : list event) :
  hunt_zombies aws (Hunter (snd (_get_regions regs)) br) (regions_option regions)
  = (o, inr []) ->
  report = None \/ report = Some "" ->
  main aws loads regs regions None pretty analyze br report false
  = (fst (_get_regions regs) ++ StartingHunt :: map Run o
     ++ (if analyze then [NothingToAnalyze] else [])
     ++ [Run NoZombiesFound],
     0).
Proof.
  intros Hhunt Hreport. unfold main. rewrite main_body_hunt, Hhunt. cbv zeta.
  unfold analysis_step.
  destruct analyze.
  - rewrite cli_bind_emit. unfold cli_ret. cbn [fst snd].
    by rewrite cli_bind_inr, output_step_table.
  - by rewrite cli_bind_ret, output_step_table.
Qed.

Lemma clean_account_run_witness :
  let empty :=
    {| describe_volumes := fun _ => inr [];
       describe_addresses := fun _ => inr [];
       bedrock_client := bedrock_client sample_cloud;
       invoke_model := invoke_model sample_cloud;
       now := now sample_cloud;
       exn_text := exn_text sample_cloud;
       render_markup := render_markup sample_cloud |} in
  main empty (table_loads []) (inr ["us-east-1"]) [] None false true
    "us-east-1" None false
  = ([StartingHunt; Run (ScanningRegion "us-east-1"); NothingToAnalyze;
      Run NoZombiesFound], 0).
Proof.
  intros empty.
  exact (clean_account_run empty (table_loads []) (inr ["us-east-1"]) []
           false true "us-east-1" None _ eq_refl (or_introl eq_refl)).
Defined.

(** X19: when the regions cannot be listed, whatever the exception (missing
    credentials included), the command reports it and goes on exactly as if
    the list had been the single region us-east-1: same output after the
    error line, same exit status, for every combination of options. *)
Theorem region_listing_failure_falls_back (aws : cloud)
    (loads : string -> res pyval) (e : exn) (regions : list string)
    (output : option string) (pretty analyze : bool) (br : string)
    (report : option string) (test_bedrock : bool) :
  main aws loads (inl e) regions output pretty analyze br report test_bedrock
  = (RegionListError e
     :: fst (main aws loads (inr ["us-east-1"]) regions output pretty analyze
               br report test_bedrock),
     snd (main aws loads (inr ["us-east-1"]) regions output pretty analyze
            br report test_bedrock)).
Proof.
  unfold main, main_body. rewrite !new_hunter_run. simpl _get_regions.
  cbn [fst snd].
  match goal with |- context [cli_bind ([], _) ?k] => set (K := k) end.
  rewrite !cli_bind_inr.
  destruct (K {| regions := ["us-east-1"]; bedrock_region := br |})
    as [out [[code | cls] | []]]; simpl; [done | | done].
  by destruct (String.eqb cls "NoCredentialsError").
Qed.

Lemma fresh_findings_unrated (P : zombie -> Prop) (found : list zombie) :
  Forall (fun z => fresh_finding z /\ P z) found -> Forall unrated found.
Proof.
  intros Hall. eapply Forall_impl; [exact Hall |].
  intros z [[Hnone _] _]. by left.
Qed.

(** X20: without [--analyze], a run that writes no file cannot fail once the
    hunt has returned findings: it prints the table of the records as the
    scanners built them, one row per record, with every record counted as
    Unknown, and exits with status 0. *)
Theorem plain_table_run_succeeds (aws : cloud) (loads : string -> res pyval)
    (regs : res (list string)) (regions : list string)
    (pretty : bool) (br : string) (report : option string)
    (o : list event) (z : zombie) (zs : list zombie) :
  hunt_zombies aws (Hunter (snd (_get_regions regs)) br) (regions_option regions)
  = (o, inr (z :: zs)) ->
  report = None \/ report = Some "" ->
  exists rows,
    main aws loads regs regions None pretty false br report false
    = (fst (_get_regions regs) ++ StartingHunt :: map Run o
       ++ [Run (PrintTable rows); Run (TotalCost (total_cost_of (z :: zs)));
           Run (RiskSummary 0 0 0 (Z.of_nat (length (z :: zs))))],
       0)
    /\ length rows = length (z :: zs).
Proof.
  intros Hhunt Hreport. unfold main. rewrite main_body_hunt, Hhunt. cbv zeta.
  unfold analysis_step. rewrite cli_bind_ret, (output_step_table _ _ _ _ Hreport).
  destruct (display_table_unrated z zs) as (rows & -> & Hrows).
  { eapply fresh_findings_unrated, hunt_findings_fresh, Hhunt. }
  exists rows. split; [done |]. symmetry. by eapply Forall2_length.
Qed.

Lemma plain_table_run_succeeds_witness :
  exists rows total,
    main healthy_cloud (table_loads []) (inr ["us-east-1"; "eu-west-1"])
      ["eu-west-1"] None false false "us-east-1" None false
    = ([StartingHunt; Run (ScanningRegion "eu-west-1");
        Run (PrintTable rows); Run (TotalCost total);
        Run (RiskSummary 0 0 0 2)], 0).
Proof.
  destruct (plain_table_run_succeeds healthy_cloud (table_loads [])
              (inr ["us-east-1"; "eu-west-1"]) ["eu-west-1"] false
              "us-east-1" None _ _ _ eq_refl (or_introl eq_refl))
    as (rows & Hmain & _).
  eexists _, _. exact Hmain.
Defined.

Lemma placeholders_do_not_differ (rated : list zombie) :
  Forall placeholder_only rated ->
  existsb risk_differs_from_unknown rated = false.
Proof.
  induction 1 as [| z zs Hz _ IH]; [done |].
  simpl. rewrite IH, orb_false_r. unfold risk_differs_from_unknown.
  by destruct Hz as [-> | [-> | ->]].
Qed.

Lemma placeholder_unrated (z : zombie) : placeholder_only z -> unrated z.
Proof. intros Hz. by right. Qed.

(** X21: when the analysis fails as a whole but returns (every record comes
    back with a placeholder), a run that writes no file prints the manual
    guidance after the analyzer's messages, then the table with every record
    counted as Unknown, and still exits with status 0. *)
Theorem failed_analysis_gives_guidance (aws : cloud)
    (loads : string -> res pyval) (regs : res (list string))
    (regions : list string) (pretty : bool)
    (br : string) (report : option string) (o oa : list event) (z : zombie)
    (zs rated : list zombie) :
  hunt_zombies aws (Hunter (snd (_get_regions regs)) br) (regions_option regions)
  = (o, inr (z :: zs)) ->
  analyze_with_ai aws loads (Hunter (snd (_get_regions regs)) br) (z :: zs)
  = (oa, inr rated) ->
  Forall placeholder_only rated ->
  report = None \/ report = Some "" ->
  exists rows,
    main aws loads regs regions None pretty true br report false
    = (fst (_get_regions regs) ++ StartingHunt :: map Run o
       ++ RunningAnalysis :: map Run oa
       ++ [ManualGuidance; Run (PrintTable rows);
           Run (TotalCost (total_cost_of rated));
           Run (RiskSummary 0 0 0 (Z.of_nat (length (z :: zs))))],
       0)
    /\ length rows = length (z :: zs).
Proof.
  intros Hhunt Hrun Hall Hreport.
  unfold main. rewrite main_body_hunt, Hhunt. cbv zeta.
  destruct (analyze_with_ai_result _ _ _ _ _ _ Hrun) as [Hlen _].
  unfold analysis_step.
  rewrite cli_bind_emit, Hrun, cli_bind_call_inr. cbv zeta.
  rewrite (placeholders_do_not_differ rated Hall), cli_bind_emit.
  unfold cli_ret. cbn [fst snd].
  destruct rated as [| r rs]; [done |].
  destruct (display_table_unrated r rs) as (rows & Htable & Hrows).
  { eapply Forall_impl; [exact Hall | apply placeholder_unrated]. }
  exists rows. split.
  - rewrite cli_bind_inr, (output_step_table _ _ _ _ Hreport), Htable.
    cbn [fst snd map]. rewrite Hlen.
    do 3 f_equal. simpl. by rewrite <- app_assoc.
  - rewrite <- Hlen. symmetry. by eapply Forall2_length.
Qed.

Lemma failed_analysis_gives_guidance_witness :
  exists oa rows total,
    main sample_cloud (table_loads []) (inr ["us-east-1"]) [] None false true
      "us-east-1" None false
    = ([StartingHunt; Run (ScanningRegion "us-east-1"); RunningAnalysis]
       ++ map Run oa
       ++ [ManualGuidance; Run (PrintTable rows); Run (TotalCost total);
           Run (RiskSummary 0 0 0 2)], 0).
Proof.
  destruct (failed_analysis_gives_guidance sample_cloud (table_loads [])
              (inr ["us-east-1"]) [] false "us-east-1" None
              _ _ _ _ _ eq_refl eq_refl)
    as (rows & Hmain & _).
  { vm_compute. repeat constructor. }
  { by left. }
  eexists _, _, _. exact Hmain.
Defined.






(** ** The prompt *)

Lemma describe_resource_view (i : nat) (z z' : zombie) :
  prompt_view z = prompt_view z' ->
  describe_resource i z = describe_resource i z'.
Proof.
  unfold prompt_view, describe_resource.
  by intros [= -> -> -> -> -> ->].
Qed.

Lemma imap_describe_view (zs : list zombie) : forall zs' (f : nat -> nat),
  map prompt_view zs = map prompt_view zs' ->
  imap (fun i => describe_resource (f i)) zs
  = imap (fun i => describe_resource (f i)) zs'.
Proof.
  induction zs as [| z zs IH]; intros [| z' zs'] f Hview; try done.
  cbn [map] in Hview.
  assert (prompt_view z = prompt_view z') as Hz by congruence.
  assert (map prompt_view zs = map prompt_view zs') as Hzs by congruence.
  cbn [imap]. f_equal.
  - by apply describe_resource_view.
  - apply (IH zs' (f ∘ S) Hzs).
Qed.

(** X23: the prompt tells the model the type, identifier, region, tags, size
    and address of each resource and nothing else: two lists that agree on
    these fields get the same prompt, whatever their cost estimates and
    whatever annotations they already carry. *)
Theorem prompt_omits_cost_and_annotation (zs zs' : list zombie) :
  map prompt_view zs = map prompt_view zs' ->
  _create_analysis_prompt zs = _create_analysis_prompt zs'.
Proof.
  intros Hview. unfold _create_analysis_prompt.
  pose proof (imap_describe_view zs zs' id Hview) as Himap.
  change (imap describe_resource zs = imap describe_resource zs') in Himap.
  by rewrite Himap.
Qed.

Lemma prompt_omits_cost_and_annotation_witness :
  _create_analysis_prompt sample_zombies
  = _create_analysis_prompt
      (map (fun z => set_analysis parse_failed
                       (Zombie (resource_type z) (resource_id z) (size z)
                          (public_ip z) (region z) (tags z) 0%float None))
         sample_zombies).
Proof.
  exact (prompt_omits_cost_and_annotation sample_zombies _ eq_refl).
Defined.
